(** * openstates-core: text extraction pipeline and the scruffy events checker

    A shallow embedding of [text_extract.py] (content cache, link
    fallback, sampling and update commands) and of
    [tools/scruffy/checkers/events.py], with the properties of the design
    document stated and proved over the embedded code.

    Python values are embedded as follows: [str] as [string], [bytes] as
    [list Byte.byte], a [dict] used as a table as a [gmap], records of the
    store as Rocq records.  Statements that touch the disk, the network or
    the record store run in a state-and-exception monad over [World];
    every externally visible action is appended to the world's trace. *)

From Stdlib Require Import ZArith Lia Ascii.
From stdpp Require Import base option list strings gmap sorting.

Set Default Proof Using "Type".

(** ** POSIX paths ([posixpath]) *)

Module Path.

Definition sep : ascii := "/"%char.

Definition is_sep (c : ascii) : bool := bool_decide (c = sep).

(** [lstrip f l] drops the longest prefix of [l] whose characters
    satisfy [f]. *)
Fixpoint lstrip (f : ascii → bool) (l : list ascii) : list ascii :=
  match l with
  | [] => []
  | c :: l' => if f c then lstrip f l' else l
  end.

(** [head_rev p] is [p[:p.rfind('/')+1]], reversed. *)
Definition head_rev (p : string) : list ascii :=
  lstrip (λ c, negb (is_sep c)) (rev (String.list_ascii_of_string p)).

(** [posixpath.dirname]:
<<
    i = p.rfind(sep) + 1
    head = p[:i]
    if head and head != sep*len(head):
        head = head.rstrip(sep)
    return head
>> *)
Definition dirname (p : string) : string :=
  let head := head_rev p in
  let stripped := lstrip is_sep head in
  String.string_of_list_ascii
    (rev (match stripped with [] => head | _ :: _ => stripped end)).

(** [posixpath.basename]: [p[i:]], the part after the last slash. *)
Definition basename (p : string) : string :=
  String.string_of_list_ascii
    (drop (length (head_rev p)) (String.list_ascii_of_string p)).

End Path.

(** ** Data *)

Abbreviation bytes := (list Byte.byte).

(** A row of the sample file, the dict [csv.DictReader] yields; its
    columns are the [fieldnames] of [_resample]. *)
Record Version := {
  v_id : string;
  v_session : string;
  v_identifier : string;
  v_title : string;
  v_jurisdiction_id : string;
  v_media_type : string;
  v_url : string;
  v_note : string;
}.

(** The metadata dict handed to [extract_text]. *)
Record Metadata := {
  md_url : string;
  md_media_type : string;
  md_title : string;
  md_jurisdiction_id : string;
}.

(** Rows of the record store. *)
Record VersionLink := {
  link_url : string;
  link_media_type : string;
}.

Record BillVersion := {
  bv_date : string;
  bv_note : string;
  bv_links : list VersionLink;
}.

Record Bill := {
  bill_id : nat;
  bill_title : string;
  bill_jurisdiction_id : string;   (* legislative_session.jurisdiction_id *)
  bill_versions : list BillVersion;
}.

(** The [search_vector] column: the empty string written by
    [update_bill], or the weighted vector the store computes from
    [all_titles] (weight A) and [raw_text] (weight B). *)
Inductive SearchVector :=
| VectorEmpty
| VectorWeighted (a_titles b_text : string).

Record SearchableBill := {
  sb_id : nat;
  sb_bill : nat;
  sb_version_link : VersionLink;
  sb_all_titles : string;
  sb_raw_text : string;
  sb_is_error : bool;
  sb_search_vector : SearchVector;
}.

(** ** Exceptions, effects and the world *)

Inductive exn :=
| KeyError (key : string)
| FileExistsError (path : string)
| IsADirectoryError (path : string)
| FetchError (url : string)          (* whatever the scraper raises *)
| ExtractError                       (* whatever [extract_text] raises *)
| AttributeError (what : string)
| UnboundLocalError (name : string)
| IndexError.

#[global] Instance exn_eq_dec : EqDecision exn.
Proof. solve_decision. Defined.

Inductive result (A : Type) :=
| Ok (a : A)
| Raise (e : exn).
Arguments Ok {A} a.
Arguments Raise {A} e.

(** The colour of a terminal message, and the aggregate status of a
    sampling run (the summary line is printed in the colour named by the
    status). *)
Inductive colour := green | yellow | red.

#[global] Instance colour_eq_dec : EqDecision colour.
Proof. solve_decision. Defined.

(** What the commands print.  The layout of a line is not modelled, only
    the values that go into it. *)
Inductive message :=
| MsgCouldNotFetch
| MsgException (e : exn)
| MsgItem (filename : string) (text_filename : option string) (n_bytes : nat)
| MsgSummary (count missing empty : nat)
| MsgSelected (n : nat)
| MsgUpdating (n : nat).

Inductive event :=
| EvRequest (url : string)                   (* an HTTP request is sent *)
| EvMkdir (path : string)                    (* a directory is created *)
| EvWrite (path : string) (data : bytes)     (* a file is written *)
| EvRead (path : string)                     (* a file is read *)
| EvEcho (m : message) (fg : option colour)  (* a line on standard output *)
| EvCreate (id : nat)                        (* a SearchableBill row is inserted *)
| EvVectorUpdate (ids : list (option nat)).  (* the bulk search-vector update *)

Record World := {
  files : gmap string bytes;          (* regular files, by path *)
  dirs : gset string;                 (* directories, by path *)
  searchable : list SearchableBill;   (* the SearchableBill table *)
  sb_seq : nat;                       (* its primary-key sequence *)
  trace : list event;
}.

Definition M (A : Type) : Type := World → result A * World.

Definition ret {A} (a : A) : M A := λ w, (Ok a, w).

Definition raise {A} (e : exn) : M A := λ w, (Raise e, w).

Definition bind {A B} (m : M A) (k : A → M B) : M B :=
  λ w, match m w with
       | (Ok a, w') => k a w'
       | (Raise e, w') => (Raise e, w')
       end.

(** [try: ... except Exception] as a value: the outcome of the body is
    reified, its effects are kept. *)
Definition try {A} (m : M A) : M (result A) :=
  λ w, let '(r, w') := m w in (Ok r, w').

Definition emit (e : event) : M unit :=
  λ w, (Ok tt, {| files := files w; dirs := dirs w; searchable := searchable w;
                  sb_seq := sb_seq w; trace := trace w ++ [e] |}).

Declare Scope py_scope.
Delimit Scope py_scope with py.
Notation "'let!' x ':=' m 'in' k" := (bind m (λ x, k))
  (at level 10, x pattern, m at level 100, k at level 200) : py_scope.
Notation "'do!' m 'in' k" := (bind m (λ _, k))
  (at level 10, m at level 100, k at level 200) : py_scope.
Open Scope py_scope.

(** ** The filesystem ([os], [open]) *)

Module Os.

Definition set_dirs (d : gset string) (w : World) : World :=
  {| files := files w; dirs := d; searchable := searchable w;
     sb_seq := sb_seq w; trace := trace w |}.

Definition set_files (f : gmap string bytes) (w : World) : World :=
  {| files := f; dirs := dirs w; searchable := searchable w;
     sb_seq := sb_seq w; trace := trace w |}.

(** [os.path.exists] *)
Definition on_disk (p : string) (w : World) : bool :=
  bool_decide (is_Some (files w !! p)) || bool_decide (p ∈ dirs w).

Definition path_exists (p : string) : M bool := λ w, (Ok (on_disk p w), w).

(** [os.mkdir]: fails when the path is already taken. *)
Definition mkdir (p : string) : M unit :=
  λ w, if on_disk p w then (Raise (FileExistsError p), w)
       else emit (EvMkdir p) (set_dirs ({[p]} ∪ dirs w) w).

(** [os.makedirs(name)] (with [exist_ok=False]):
<<
    head, tail = path.split(name)
    if not tail:
        head, tail = path.split(head)
    if head and tail and not path.exists(head):
        try:
            makedirs(head)
        except FileExistsError:
            pass
    mkdir(name)
>>
    The recursion goes up the path, which gets shorter; [fuel] bounds
    it by the length of the name. *)
Fixpoint makedirs_fuel (fuel : nat) (name : string) : M unit :=
  match fuel with
  | 0 => mkdir name
  | S fuel' =>
      let head := Path.dirname name in
      let tail := Path.basename name in
      let '(head, tail) :=
        if bool_decide (tail = "")
        then (Path.dirname head, Path.basename head) else (head, tail) in
      let! ex := path_exists head in
      if bool_decide (head ≠ "") && bool_decide (tail ≠ "") && negb ex
      then
        let! r := try (makedirs_fuel fuel' head) in
        match r with
        | Ok _ | Raise (FileExistsError _) => mkdir name
        | Raise e => raise e
        end
      else mkdir name
  end.

Definition makedirs (name : string) : M unit :=
  makedirs_fuel (String.length name) name.

(** [open(p, "rb").read()] *)
Definition read_file (p : string) : M bytes :=
  λ w, match files w !! p with
       | Some data => (do! emit (EvRead p) in ret data) w
       | None => (Raise (IsADirectoryError p), w)
       end.

(** [open(p, "wb").write(data)]: creates or truncates the file. *)
Definition write_file (p : string) (data : bytes) : M unit :=
  λ w, if bool_decide (p ∈ dirs w) then (Raise (IsADirectoryError p), w)
       else emit (EvWrite p data) (set_files (<[p := data]> (files w)) w).

End Os.

(** ** [click] *)

Module Click.

(** [click.secho(message=None, file=None, nl=True, err=False,
    color=None, **styles)]: the message (converted to a string when it
    is not one) is styled with [styles] and written with
    [file.write], to standard output when [file] is left out.  The
    second positional parameter is [file].  The only objects this
    program passes there are [str] values, and a [str] has no [write]
    method: the write raises [AttributeError].  Below, [file] is [None]
    for a call that leaves the second positional argument out and
    [Some s] for a call that passes the string [s] there. *)
Definition secho (m : message) (file : option string) (fg : option colour)
  : M unit :=
  match file with
  | None => emit (EvEcho m fg)
  | Some _ => raise (AttributeError "'str' object has no attribute 'write'")
  end.

End Click.

(** ** Collaborators

    [extract.utils], [extract.extract_text] and the remote servers behind
    [scrapelib] are outside this file; the pipeline is parametric in
    them.  A collaborator that raises is one that answers [None]. *)

Class Collaborators := {
  jid_to_abbr : string → string;
  abbr_to_jid : string → string;
  (** the body a GET of the url is answered with, if it is answered *)
  http_get : string → option bytes;
  (** [extract_text(data, metadata)] *)
  extract_text : bytes → Metadata → option string;
}.

(** ** [text_extract.py] *)

Module TextExtract.
Section Pipeline.
Context `{Collaborators}.

Definition MIMETYPES : gmap string string :=
  list_to_map
    [ ("application/pdf", "pdf");
      ("text/html", "html");
      ("application/msword", "doc");
      ("application/rtf", "rtf");
      ("application/vnd.openxmlformats-officedocument.wordprocessingml.document",
       "docx") ].

(** [d[k]] *)
Definition getitem (d : gmap string string) (k : string) : M string :=
  match d !! k with
  | Some v => ret v
  | None => raise (KeyError k)
  end.

(** [scraper.get(url).content] *)
Definition scraper_get (url : string) : M bytes :=
  do! emit (EvRequest url) in
  match http_get url with
  | Some content => ret content
  | None => raise (FetchError url)
  end.

(** [scraper.urlretrieve(url, filename)]: the request is made first,
    then its body is written to [filename]; the content of the response
    is what [download] uses of the result. *)
Definition scraper_urlretrieve (url filename : string) : M bytes :=
  let! content := scraper_get url in
  do! Os.write_file filename content in
  ret content.

(** [f'raw/{abbr}/{session}-{identifier}-{note}.{ext}'] *)
Definition raw_filename (abbr session identifier note ext : string) : string :=
  "raw/" +:+ abbr +:+ "/" +:+ session +:+ "-" +:+ identifier +:+ "-"
    +:+ note +:+ "." +:+ ext.

(** The first three statements of [download]: the path of the raw
    artifact of a version. *)
Definition resolve_path (version : Version) : M string :=
  let abbr := jid_to_abbr (v_jurisdiction_id version) in
  let! ext := getitem MIMETYPES (v_media_type version) in
  ret (raw_filename abbr (v_session version) (v_identifier version)
         (v_note version) ext).

(** [download(version)].  The two results of the source, [(None, None)]
    and [(filename, content)], are [None] and [Some (filename, content)].
    Everything [os.makedirs] raises here is an [OSError], which the
    first handler discards. *)
Definition download (version : Version) : M (option (string * bytes)) :=
  let! filename := resolve_path version in
  let! present := Os.path_exists filename in
  if negb present then
    let! _ := try (Os.makedirs (Path.dirname filename)) in
    let! r := try (scraper_urlretrieve (v_url version) filename) in
    match r with
    | Raise _ =>
        do! Click.secho MsgCouldNotFetch (Some (v_url version)) (Some yellow) in
        ret None
    | Ok content => ret (Some (filename, content))
    end
  else
    let! data := Os.read_file filename in
    ret (Some (filename, data)).

(** [s.replace(old, new)] for a non-empty [old]: the occurrences are
    replaced from the left and do not overlap.  [skip] counts the
    characters of a match that are still to be dropped. *)
Fixpoint replace_go (old new : string) (skip : nat) (s : string) : string :=
  match s with
  | "" => ""
  | String c s' =>
      match skip with
      | S k => replace_go old new k s'
      | 0 =>
          if String.prefix old s
          then new +:+ replace_go old new (String.length old - 1) s'
          else String c (replace_go old new 0 s')
      end
  end.

Definition str_replace (old new s : string) : string := replace_go old new 0 s.

(** The keys of a sample row that [extract_text] is given. *)
Definition version_metadata (version : Version) : Metadata :=
  {| md_url := v_url version; md_media_type := v_media_type version;
     md_title := v_title version;
     md_jurisdiction_id := v_jurisdiction_id version |}.

Definition call_extract_text (data : bytes) (metadata : Metadata) : M string :=
  match extract_text data metadata with
  | Some text => ret text
  | None => raise ExtractError
  end.

(** Truth value of a [str]. *)
Definition truthy (s : string) : bool := negb (bool_decide (s = "")).

(** [extract_to_file(filename, data, version)] *)
Definition extract_to_file (filename : string) (data : bytes) (version : Version)
  : M (option string * nat) :=
  let! text := call_extract_text data (version_metadata version) in
  if negb (truthy text) then ret (None, 0)
  else
    let text_filename := str_replace "raw/" "text/" filename +:+ ".txt" in
    let! _ := try (Os.makedirs (Path.dirname text_filename)) in
    do! Os.write_file text_filename (String.list_byte_of_string text) in
    ret (Some text_filename, String.length text).

(** *** [update_bill] *)

(** [order_by("-date", "-note")]: [a] may come before [b] when its
    date is later, or the dates agree and its note is not smaller. *)
Definition newer_or_equal (a b : BillVersion) : Prop :=
  if decide (bv_date a = bv_date b)
  then (bv_note b ≤ bv_note a)%string
  else (bv_date b ≤ bv_date a)%string.

#[global] Instance newer_or_equal_dec : RelDecision newer_or_equal.
Proof. intros a b. unfold newer_or_equal. destruct (decide _); apply _. Defined.

Definition order_by_date_note_desc (versions : list BillVersion)
  : list BillVersion :=
  merge_sort newer_or_equal versions.

(** [queryset[0]] *)
Definition first_row {A} (rows : list A) : M A :=
  match rows with
  | x :: _ => ret x
  | [] => raise IndexError
  end.

(** The local variables the loop over the links assigns.  [link] is
    unbound until the loop has assigned it. *)
Record Locals := {
  is_error : bool;
  raw_text : string;
  link : option VersionLink;
}.

Definition link_metadata (bill : Bill) (l : VersionLink) : Metadata :=
  {| md_url := link_url l; md_media_type := link_media_type l;
     md_title := bill_title bill;
     md_jurisdiction_id := bill_jurisdiction_id bill |}.

(** The [for link in latest_version.links.all()] loop of [update_bill].
    [continue] goes on with the remaining links, [break] returns. *)
Fixpoint link_loop (bill : Bill) (links : list VersionLink) (st : Locals)
  : M Locals :=
  match links with
  | [] => ret st
  | l :: rest =>
      let st := {| is_error := is_error st; raw_text := raw_text st;
                   link := Some l |} in
      let! r := try (scraper_get (link_url l)) in
      match r with
      | Raise _ => link_loop bill rest st
      | Ok data =>
          let! r := try (call_extract_text data (link_metadata bill l)) in
          match r with
          | Raise e =>
              do! Click.secho (MsgException e) None (Some red) in
              link_loop bill rest st
          | Ok text =>
              let st := {| is_error := is_error st; raw_text := text;
                           link := link st |} in
              if truthy text
              then ret {| is_error := false; raw_text := raw_text st;
                          link := link st |}
              else link_loop bill rest st
          end
      end
  end.

(** Reading a local variable. *)
Definition read_local {A} (name : string) (v : option A) : M A :=
  match v with
  | Some x => ret x
  | None => raise (UnboundLocalError name)
  end.

(** [SearchableBill.objects.create(...)]: the row gets the next key of
    the sequence. *)
Definition searchable_create (bill : nat) (version_link : VersionLink)
    (all_titles raw_text : string) (is_error : bool) (search_vector : SearchVector)
  : M SearchableBill :=
  λ w,
    let id := S (sb_seq w) in
    let sb := {| sb_id := id; sb_bill := bill; sb_version_link := version_link;
                 sb_all_titles := all_titles; sb_raw_text := raw_text;
                 sb_is_error := is_error; sb_search_vector := search_vector |} in
    (Ok sb, {| files := files w; dirs := dirs w;
               searchable := searchable w ++ [sb]; sb_seq := id;
               trace := trace w ++ [EvCreate id] |}).

(** [update_bill] once [latest_version] is bound: the loop over its
    links and the row that is created from the locals. *)
Definition update_bill_with (bill : Bill) (latest_version : BillVersion)
  : M (option nat) :=
  let! st := link_loop bill (bv_links latest_version)
               {| is_error := true; raw_text := ""; link := None |} in
  let! version_link := read_local "link" (link st) in
  let! sb := searchable_create (bill_id bill) version_link (bill_title bill)
               (raw_text st) (is_error st) VectorEmpty in
  ret (Some (sb_id sb)).

(** [update_bill(bill)]: [None] is the result of the bare [return]. *)
Definition update_bill (bill : Bill) : M (option nat) :=
  let! r := try (first_row (order_by_date_note_desc (bill_versions bill))) in
  match r with
  | Raise IndexError => ret None
  | Raise e => raise e
  | Ok latest_version => update_bill_with bill latest_version
  end.

(** *** [sample] *)

Record Counters := {
  count : nat;
  missing : nat;
  empty : nat;
}.

(** The loop over the rows of the sample file. *)
Fixpoint sample_loop (rows : list Version) (quiet : bool) (c : Counters)
  : M Counters :=
  match rows with
  | [] => ret c
  | version :: rows' =>
      let c := {| count := count c + 1; missing := missing c; empty := empty c |} in
      let! r := download version in
      match r with
      | None =>
          sample_loop rows' quiet
            {| count := count c; missing := missing c + 1; empty := empty c |}
      | Some (filename, data) =>
          if negb (truthy filename)
          then sample_loop rows' quiet
                 {| count := count c; missing := missing c + 1; empty := empty c |}
          else
            let! extracted := extract_to_file filename data version in
            let text_filename := extracted.1 in
            let n_bytes := extracted.2 in
            let c := if bool_decide (n_bytes = 0)
                     then {| count := count c; missing := missing c;
                             empty := empty c + 1 |}
                     else c in
            do! (if negb quiet
                 then Click.secho (MsgItem filename text_filename n_bytes) None None
                 else ret tt) in
            sample_loop rows' quiet c
      end
  end.

(** The status decided after the loop:
<<
    status = "green"
    if empty or missing > 10:
        status = "red"
    elif missing:
        status = "yellow"
>> *)
Definition decide_status (c : Counters) : colour :=
  if negb (bool_decide (empty c = 0)) || bool_decide (10 < missing c) then red
  else if negb (bool_decide (missing c = 0)) then yellow
  else green.

(** [sample(state, resample, quiet)], from the rows read from
    [raw/{state}.csv] on.  The result is [Some 1] for [return 1] and
    [None] when the function falls off its end. *)
Definition sample (rows : list Version) (quiet : bool) : M (option Z) :=
  let! c := sample_loop rows quiet {| count := 0; missing := 0; empty := 0 |} in
  let status := decide_status c in
  do! Click.secho (MsgSummary (count c) (missing c) (empty c)) None (Some status) in
  if bool_decide (status = red) then ret (Some 1%Z) else ret None.

(** *** [update] *)

(** [Bill.objects.filter(legislative_session__jurisdiction_id=jid,
    searchable__isnull=True)[:n]] over the bills of the store. *)
Definition missing_search (bills : list Bill) (jid : string) (n : nat)
  : M (list Bill) :=
  λ w,
    (Ok (take n
           (filter (λ b, bill_jurisdiction_id b = jid
                         ∧ Forall (λ sb, sb_bill sb ≠ bill_id b) (searchable w))
              bills)), w).

(** [for b in missing_search: ids_to_update.append(update_bill(b))] *)
Fixpoint update_loop (bills : list Bill) (ids_to_update : list (option nat))
  : M (list (option nat)) :=
  match bills with
  | [] => ret ids_to_update
  | b :: rest =>
      let! id := update_bill b in
      update_loop rest (ids_to_update ++ [id])
  end.

(** [SearchableBill.objects.filter(id__in=ids).update(search_vector=...)]:
    a [None] among the ids matches no row. *)
Definition update_search_vectors (ids : list (option nat)) : M unit :=
  λ w,
    (Ok tt,
     {| files := files w; dirs := dirs w;
        searchable :=
          (λ sb, if bool_decide (Some (sb_id sb) ∈ ids)
                 then {| sb_id := sb_id sb; sb_bill := sb_bill sb;
                         sb_version_link := sb_version_link sb;
                         sb_all_titles := sb_all_titles sb;
                         sb_raw_text := sb_raw_text sb;
                         sb_is_error := sb_is_error sb;
                         sb_search_vector :=
                           VectorWeighted (sb_all_titles sb) (sb_raw_text sb) |}
                 else sb) <$> searchable w;
        sb_seq := sb_seq w;
        trace := trace w ++ [EvVectorUpdate ids] |}).

(** [update(state, n)] over the bills of the store. *)
Definition update (bills : list Bill) (state : string) (n : nat) : M unit :=
  let! selected := missing_search bills (abbr_to_jid state) n in
  do! emit (EvEcho (MsgSelected (length selected)) None) in
  let! ids_to_update := update_loop selected [] in
  do! emit (EvEcho (MsgUpdating (length ids_to_update)) None) in
  update_search_vectors ids_to_update.

End Pipeline.
End TextExtract.

(** ** [tools/scruffy/checkers/events.py] *)

Module Scruffy.

(** The values the checker stores under the keys of [data]. *)
Inductive pyval :=
| PyNone
| PyStr (s : string).

#[global] Instance pyval_eq_dec : EqDecision pyval.
Proof. solve_decision. Defined.

Definition pyval_of (o : option string) : pyval :=
  match o with
  | None => PyNone
  | Some s => PyStr s
  end.

(** An entry of [agenda['related_entities']]; [id] may be [None]. *)
Record Entity := {
  ent_type : string;
  ent_id : option string;
  ent_name : string;
}.

Record Agenda := {
  related_entities : list Entity;
}.

(** An event document.  [when] and [end] are points in time; [end]
    may be missing or [None]. *)
Record Event := {
  ev_id : string;
  ev_when : Z;
  ev_end : option Z;
  ev_agenda : list Agenda;
}.

(** [Check(collection, id, tagname, severity, data=None)] *)
Record Check := {
  collection : string;
  id : string;
  tagname : string;
  severity : string;
  data : option (gmap string pyval);
}.

(** [.common]: [common_checks] and [resolve] are outside this file. *)
Class Common := {
  common_checks : Event → string → string → list Check;
  resolve : string → string → option string;
}.

Section Checker.
Context `{Common}.

(** Truth value of [entity['id']]. *)
Definition id_truthy (i : option string) : bool :=
  match i with
  | None => false
  | Some s => negb (bool_decide (s = ""))
  end.

(** The body of [for entity in agenda['related_entities']]. *)
Definition entity_checks (event : Event) (entity : Entity) : list Check :=
  match ent_id entity with
  | Some i =>
      if id_truthy (ent_id entity) then
        let wid := resolve (ent_type entity) i in
        if bool_decide (wid = None) then
          [ {| collection := "events"; id := ev_id event;
               tagname := "bad-related-entity"; severity := "important";
               data := Some (<["id" := pyval_of wid]>
                             (<["name" := PyStr (ent_name entity)]> ∅)) |} ]
        else []
      else []
  | None => []
  end.

(** The checks one event yields, in the order they are yielded. *)
Definition event_checks (event : Event) : list Check :=
  common_checks event "event" "events"
  ++ (match ev_end event with
      | Some e =>
          if bool_decide (e < ev_when event)%Z
          then [ {| collection := "events"; id := ev_id event;
                    tagname := "ends-before-it-starts";
                    severity := "important"; data := None |} ]
          else []
      | None => []
      end)
  ++ flat_map (λ agenda, flat_map (entity_checks event) (related_entities agenda))
       (ev_agenda event).

(** [check(db)], over the documents [db.events.find()] returns: the
    list of the checks the generator yields. *)
Definition check (events : list Event) : list Check :=
  flat_map event_checks events.

End Checker.
End Scruffy.

(** ** The vocabulary of the design

    What the properties below are stated with: the terms of the design
    document, defined over the data of the code. *)

Module Design.
Import Os TextExtract Scruffy.

(** What a run of [makedirs] can do to the world: it leaves files and
    store alone, adds directories whose paths are no longer than [n],
    and logs nothing but directory creations. *)
Definition mkdirs_only (n : nat) (w w' : World) : Prop :=
  files w' = files w ∧ searchable w' = searchable w ∧ sb_seq w' = sb_seq w
  ∧ dirs w ⊆ dirs w'
  ∧ (∀ p, p ∈ dirs w' → p ∈ dirs w ∨ String.length p ≤ n)
  ∧ ∃ ps, trace w' = trace w ++ (EvMkdir <$> ps).

(** The media types [MIMETYPES] has an extension for. *)
Definition mapped_media_types : list string :=
  [ "application/pdf"; "text/html"; "application/msword"; "application/rtf";
    "application/vnd.openxmlformats-officedocument.wordprocessingml.document" ].

(** The order of the design: [(date, note)] pairs compared
    lexicographically, dates first. *)
Definition key_le (a b : BillVersion) : Prop :=
  ((bv_date a ≤ bv_date b)%string ∧ bv_date a ≠ bv_date b)
  ∨ (bv_date a = bv_date b ∧ (bv_note a ≤ bv_note b)%string).

(** The urls requested, in the order of the requests. *)
Definition requests (t : list event) : list string :=
  omap (λ e, match e with EvRequest url => Some url | _ => None end) t.

(** The ids of the rows created, in the order of their creation. *)
Definition created (t : list event) : list nat :=
  omap (λ e, match e with EvCreate i => Some i | _ => None end) t.

(** The id lists of the bulk search-vector updates issued. *)
Definition vector_updates (t : list event) : list (list (option nat)) :=
  omap (λ e, match e with EvVectorUpdate ids => Some ids | _ => None end) t.

(** The store and the disk are the same in both worlds. *)
Definition same_state (w w' : World) : Prop :=
  files w' = files w ∧ dirs w' = dirs w ∧ searchable w' = searchable w
  ∧ sb_seq w' = sb_seq w.

Section WithCollaborators.
Context `{Collaborators}.

(** The path [download] computes for a version whose media type has
    the extension [ext]. *)
Definition path_of (version : Version) (ext : string) : string :=
  raw_filename (jid_to_abbr (v_jurisdiction_id version)) (v_session version)
    (v_identifier version) (v_note version) ext.

(** The rows whose raw artifacts are on disk. *)
Definition all_cached (rows : list Version) (w : World) : Prop :=
  ∀ version, version ∈ rows →
    ∃ ext data, MIMETYPES !! v_media_type version = Some ext
                ∧ files w !! path_of version ext = Some data.

(** The outcome of one link in the words of the design: the text the
    link yields, when its content can be fetched and extracts to a
    text that is not empty. *)
Definition link_yield (bill : Bill) (l : VersionLink) : option string :=
  match http_get (link_url l) with
  | Some data =>
      match extract_text data (link_metadata bill l) with
      | Some text => if truthy text then Some text else None
      | None => None
      end
  | None => None
  end.

(** The links the selector is to attempt, in the words of the design:
    the links in their order, up to and with the first that yields a
    text. *)
Fixpoint attempted (bill : Bill) (links : list VersionLink) : list VersionLink :=
  match links with
  | [] => []
  | l :: rest =>
      match link_yield bill l with
      | Some _ => [l]
      | None => l :: attempted bill rest
      end
  end.

(** The first link that yields a text, with the text. *)
Fixpoint first_yield (bill : Bill) (links : list VersionLink)
  : option (VersionLink * string) :=
  match links with
  | [] => None
  | l :: rest =>
      match link_yield bill l with
      | Some text => Some (l, text)
      | None => first_yield bill rest
      end
  end.

(** The locals the loop ends with. *)
Definition final_locals (bill : Bill) (links : list VersionLink) (st : Locals)
  : Locals :=
  match first_yield bill links with
  | Some (l, text) => {| is_error := false; raw_text := text; link := Some l |}
  | None => {| is_error := is_error st; raw_text := "";
               link := match last links with
                       | Some l => Some l
                       | None => link st
                       end |}
  end.

End WithCollaborators.

Definition is_bad_related_entity (c : Check) : Prop :=
  tagname c = "bad-related-entity".

#[global] Instance is_bad_related_entity_dec c : Decision (is_bad_related_entity c).
Proof. unfold is_bad_related_entity. apply _. Defined.

Section WithCommon.
Context `{Common}.

(** An entity with a truthy id that [resolve] maps to [None]. *)
Definition unresolved (entity : Entity) : bool :=
  match ent_id entity with
  | Some i => negb (bool_decide (i = ""))
              && bool_decide (resolve (ent_type entity) i = None)
  | None => false
  end.

(** The check such an entity is reported with: [None] under ["id"]. *)
Definition bad_related_entity (event : Event) (entity : Entity) : Check :=
  {| collection := "events"; id := ev_id event;
     tagname := "bad-related-entity"; severity := "important";
     data := Some (<["id" := PyNone]>
                   (<["name" := PyStr (ent_name entity)]> ∅)) |}.

(** The checks expected for the agenda of an event: one for each
    unresolved entity, in the order of the agenda. *)
Definition expected (event : Event) : list Check :=
  flat_map
    (λ agenda, flat_map
                 (λ entity, if unresolved entity
                            then [bad_related_entity event entity] else [])
                 (related_entities agenda))
    (ev_agenda event).

End WithCommon.

(** The path of the text artifact of a raw artifact, as
    [extract_to_file] computes it. *)
Definition text_path (filename : string) : string :=
  str_replace "raw/" "text/" filename +:+ ".txt".

(** [old] occurs in [s]. *)
Fixpoint contains (old s : string) : bool :=
  String.prefix old s
  || match s with
     | "" => false
     | String _ s' => contains old s'
     end.

(** The lines printed, in their order. *)
Definition echoes (t : list event) : list message :=
  omap (λ e, match e with EvEcho m _ => Some m | _ => None end) t.

(** An event that reads or changes the disk. *)
Definition touches_disk (e : event) : bool :=
  match e with
  | EvMkdir _ | EvWrite _ _ | EvRead _ => true
  | _ => false
  end.

Definition disk_events (t : list event) : list event :=
  filter (λ e, Is_true (touches_disk e)) t.

(** A row whose error flag says whether it has a text: the flag is set
    exactly when the text is empty. *)
Definition row_consistent (sb : SearchableBill) : Prop :=
  sb_is_error sb = true ↔ sb_raw_text sb = "".

Definition is_ends_before_it_starts (c : Check) : Prop :=
  tagname c = "ends-before-it-starts".

#[global] Instance is_ends_before_it_starts_dec c :
  Decision (is_ends_before_it_starts c).
Proof. unfold is_ends_before_it_starts. apply _. Defined.

(** An event whose end is set and lies before its start. *)
Definition ends_early (event : Event) : bool :=
  match ev_end event with
  | Some e => bool_decide (e < ev_when event)%Z
  | None => false
  end.

(** The check an event that ends before it starts is reported with. *)
Definition ends_before_it_starts (event : Event) : Check :=
  {| collection := "events"; id := ev_id event;
     tagname := "ends-before-it-starts"; severity := "important";
     data := None |}.

End Design.

(** ** A small world to run the code in

    One jurisdiction, a server that has three documents, and an extractor
    that decodes the body of a document and raises on a garbled one. *)

Module Demo.

Definition nc : string := "ocd-jurisdiction/country:us/state:nc/government".

Definition collaborators : Collaborators :=
  {| jid_to_abbr := λ _, "nc";
     abbr_to_jid := λ _, nc;
     http_get := λ url,
       if bool_decide (url = "http://leg.example/empty") then Some []
       else if bool_decide (url = "http://leg.example/text")
            then Some (String.list_byte_of_string "text")
       else if bool_decide (url = "http://leg.example/garbled")
            then Some [Byte.x00]
       else None;
     extract_text := λ data _,
       match data with
       | [Byte.x00] => None
       | _ => Some (String.string_of_list_byte data)
       end |}.

(** Nothing on disk, nothing in the store, nothing logged. *)
Definition world0 : World :=
  {| files := ∅; dirs := ∅; searchable := []; sb_seq := 0; trace := [] |}.

(** A row of a sample file: version 1 of HB 1 of session 2019. *)
Definition row (url media_type : string) : Version :=
  {| v_id := "1"; v_session := "2019"; v_identifier := "HB 1";
     v_title := "An act"; v_jurisdiction_id := nc;
     v_media_type := media_type; v_url := url; v_note := "Filed" |}.

Definition link_empty : VersionLink :=
  {| link_url := "http://leg.example/empty"; link_media_type := "text/html" |}.
Definition link_text : VersionLink :=
  {| link_url := "http://leg.example/text"; link_media_type := "text/html" |}.
Definition link_garbled : VersionLink :=
  {| link_url := "http://leg.example/garbled"; link_media_type := "application/pdf" |}.
Definition link_down : VersionLink :=
  {| link_url := "http://leg.example/down"; link_media_type := "application/pdf" |}.

Definition bill (id : nat) (versions : list BillVersion) : Bill :=
  {| bill_id := id; bill_title := "An act"; bill_jurisdiction_id := nc;
     bill_versions := versions |}.

Definition version (date note : string) (links : list VersionLink) : BillVersion :=
  {| bv_date := date; bv_note := note; bv_links := links |}.

(** A checker environment without common checks in which no id
    resolves. *)
Definition nothing_resolves : Scruffy.Common :=
  {| Scruffy.common_checks := λ _ _ _, []; Scruffy.resolve := λ _ _, None |}.

(** A meeting with one agenda item, which relates a bill by id and a
    committee by name only. *)
Definition committee_meeting : Scruffy.Event :=
  {| Scruffy.ev_id := "NCE00000001";
     Scruffy.ev_when := 1580000000;
     Scruffy.ev_end := None;
     Scruffy.ev_agenda :=
       [ {| Scruffy.related_entities :=
              [ {| Scruffy.ent_type := "bill";
                   Scruffy.ent_id := Some "NCB00001234";
                   Scruffy.ent_name := "HB 1" |};
                {| Scruffy.ent_type := "committee";
                   Scruffy.ent_id := None;
                   Scruffy.ent_name := "Rules" |} ] |} ] |}.
(** The raw artifact of the rows of [row] with a PDF is on disk. *)
Definition world_cached : World :=
  {| files := {[ "raw/nc/2019-HB 1-Filed.pdf" := String.list_byte_of_string "text" ]};
     dirs := {[ "raw"; "raw/nc" ]};
     searchable := []; sb_seq := 0; trace := [] |}.

(** A hearing whose end was entered an hour before its start. *)
Definition mistimed_hearing : Scruffy.Event :=
  {| Scruffy.ev_id := "NCE00000002";
     Scruffy.ev_when := 1580003600;
     Scruffy.ev_end := Some 1580000000%Z;
     Scruffy.ev_agenda := [] |}.

End Demo.

(** * Properties *)

(** ** Paths *)

Module PathFacts.
Import Path.

Lemma length_list_ascii (s : string) :
  length (String.list_ascii_of_string s) = String.length s.
Proof. induction s as [|c s IH]; simpl; congruence. Qed.

Lemma length_string_of_list (l : list ascii) :
  String.length (String.string_of_list_ascii l) = length l.
Proof. induction l as [|c l IH]; simpl; congruence. Qed.

Lemma list_ascii_app (s t : string) :
  String.list_ascii_of_string (s +:+ t)
  = String.list_ascii_of_string s ++ String.list_ascii_of_string t.
Proof. induction s as [|c s IH]; simpl; [done | by rewrite IH]. Qed.

Lemma list_ascii_app_length (s t : string) :
  String.length (s +:+ t) = String.length s + String.length t.
Proof. induction s as [|c s IH]; simpl; [done | by rewrite IH]. Qed.

Lemma lstrip_length f l : length (lstrip f l) ≤ length l.
Proof.
  induction l as [|c l IH]; simpl; [lia|].
  destruct (f c); simpl; lia.
Qed.

Lemma lstrip_nil f l : lstrip f l = [] → Forall (λ c, f c = true) l.
Proof.
  induction l as [|c l IH]; simpl; [constructor|].
  destruct (f c) eqn:E; [|done]. intros Hl. constructor; auto.
Qed.

Lemma lstrip_cons f l c l' : lstrip f l = c :: l' → f c = false.
Proof.
  induction l as [|d l IH]; simpl; [done|].
  destruct (f d) eqn:E; [done|]. by intros [= -> ->].
Qed.

(** Stripping a list that starts with a character of the set makes it
    shorter. *)
Lemma lstrip_cons_length f c l : f c = true → length (lstrip f (c :: l)) < length (c :: l).
Proof.
  intros Hc. simpl. rewrite Hc. pose proof (lstrip_length f l). lia.
Qed.

Lemma dirname_length (p : string) : String.length (dirname p) ≤ String.length p.
Proof.
  unfold dirname. rewrite length_string_of_list, length_rev.
  pose proof (lstrip_length (λ c, negb (is_sep c))
                (rev (String.list_ascii_of_string p))) as H1.
  rewrite length_rev, length_list_ascii in H1. fold (head_rev p) in H1.
  pose proof (lstrip_length is_sep (head_rev p)) as H2.
  destruct (lstrip is_sep (head_rev p)); simpl in *; lia.
Qed.

(** A path with a character that is not a slash is longer than its
    directory name. *)
Lemma dirname_shorter (p : string) (c : ascii) :
  c ∈ String.list_ascii_of_string p → c ≠ sep →
  String.length (dirname p) < String.length p.
Proof.
  intros Hin Hc. unfold dirname. rewrite length_string_of_list, length_rev.
  pose proof (lstrip_length (λ c, negb (is_sep c))
                (rev (String.list_ascii_of_string p))) as H1.
  rewrite length_rev, length_list_ascii in H1. fold (head_rev p) in H1.
  destruct (lstrip is_sep (head_rev p)) as [|d l] eqn:Hs.
  - (* the head is made of slashes only, the path is not *)
    apply lstrip_nil in Hs.
    destruct (decide (length (head_rev p) = String.length p)) as [Heq|]; [|lia].
    exfalso. unfold head_rev in Hs, Heq.
    remember (rev (String.list_ascii_of_string p)) as r eqn:Hr.
    assert (Hall : ∀ l, length (lstrip (λ c, negb (is_sep c)) l) = length l →
                        lstrip (λ c, negb (is_sep c)) l = l).
    { clear. intros l. destruct l as [|a l]; simpl; [done|].
      destruct (negb (is_sep a)); [|done].
      pose proof (lstrip_length (λ c, negb (is_sep c)) l). lia. }
    rewrite Hall in Hs.
    + rewrite Forall_forall in Hs. specialize (Hs c).
      unfold is_sep in Hs. rewrite bool_decide_eq_true in Hs. apply Hc, Hs.
      subst r. apply list_elem_of_In. apply -> in_rev. by apply list_elem_of_In.
    + rewrite Heq. subst r. by rewrite length_rev, length_list_ascii.
  - (* the head ends in a slash, which is stripped *)
    destruct (head_rev p) as [|e h] eqn:Hh; [done|].
    assert (is_sep e = true) as He.
    { unfold head_rev in Hh. apply lstrip_cons in Hh.
      by destruct (is_sep e). }
    pose proof (lstrip_cons_length is_sep e h He) as H2.
    rewrite Hs in H2. lia.
Qed.

(** A path with a base name is longer than its directory name. *)
Lemma dirname_basename_shorter (p : string) :
  basename p ≠ "" → String.length (dirname p) < String.length p.
Proof.
  intros Hb.
  assert (String.length (dirname p) ≤ length (head_rev p)) as H1.
  { unfold dirname. rewrite length_string_of_list, length_rev.
    pose proof (lstrip_length is_sep (head_rev p)).
    destruct (lstrip is_sep (head_rev p)); simpl in *; lia. }
  assert (length (head_rev p) < String.length p); [|lia].
  pose proof (lstrip_length (λ c, negb (is_sep c))
                (rev (String.list_ascii_of_string p))) as H2.
  rewrite length_rev, length_list_ascii in H2. fold (head_rev p) in H2.
  destruct (decide (length (head_rev p) = String.length p)) as [Heq|]; [|lia].
  exfalso. apply Hb. unfold basename.
  rewrite drop_ge; [done|]. rewrite length_list_ascii. lia.
Qed.

End PathFacts.

(** ** The filesystem *)

Module OsFacts.
Import Os Design.

Lemma mkdirs_only_refl n w : mkdirs_only n w w.
Proof.
  repeat split; auto. exists []. simpl. by rewrite app_nil_r.
Qed.

Lemma mkdirs_only_trans n m w1 w2 w3 :
  n ≤ m → mkdirs_only n w1 w2 → mkdirs_only m w2 w3 → mkdirs_only m w1 w3.
Proof.
  intros Hnm (Hf1 & Hs1 & Hq1 & Hi1 & Hd1 & ps1 & Ht1)
         (Hf2 & Hs2 & Hq2 & Hi2 & Hd2 & ps2 & Ht2).
  repeat split; try congruence.
  - set_solver.
  - intros p Hp. destruct (Hd2 p Hp) as [Hp2|]; [|by right].
    destruct (Hd1 p Hp2); [by left | right; lia].
  - exists (ps1 ++ ps2). rewrite Ht2, Ht1, fmap_app. by rewrite app_assoc.
Qed.

Lemma mkdir_only p w r w' :
  mkdir p w = (r, w') → mkdirs_only (String.length p) w w'.
Proof.
  unfold mkdir. destruct (on_disk p w); intros [= <- <-].
  - apply mkdirs_only_refl.
  - repeat split; simpl; auto.
    + set_solver.
    + intros q Hq. apply elem_of_union in Hq as [Hq|Hq]; [|by left].
      apply elem_of_singleton in Hq as ->. by right.
    + by exists [p].
Qed.

Lemma makedirs_fuel_only fuel name w r w' :
  makedirs_fuel fuel name w = (r, w') → mkdirs_only (String.length name) w w'.
Proof.
  revert name w r w'. induction fuel as [|fuel IH]; intros name w r w'; simpl.
  { apply mkdir_only. }
  set (ht := if bool_decide (Path.basename name = "")
             then (Path.dirname (Path.dirname name),
                   Path.basename (Path.dirname name))
             else (Path.dirname name, Path.basename name)).
  assert (String.length ht.1 ≤ String.length name) as Hlen.
  { subst ht. pose proof (PathFacts.dirname_length name).
    pose proof (PathFacts.dirname_length (Path.dirname name)).
    case_bool_decide; simpl; lia. }
  destruct ht as [head tail]. simpl in Hlen.
  unfold bind, path_exists, try.
  destruct (bool_decide (head ≠ "") && bool_decide (tail ≠ "")
            && negb (on_disk head w)); [|apply mkdir_only].
  destruct (makedirs_fuel fuel head w) as [r1 w1] eqn:E1.
  apply IH in E1. intros Hm.
  assert (mkdirs_only (String.length name) w1 w') as Hstep.
  { destruct r1 as [[]|e]; [by eapply mkdir_only|].
    destruct e;
      first [ by eapply mkdir_only
            | injection Hm as <- <-; apply mkdirs_only_refl ]. }
  eapply mkdirs_only_trans; eauto.
Qed.

(** The fuel of [makedirs] is enough: more of it changes nothing. *)
Lemma makedirs_fuel_enough k1 k2 name w :
  String.length name ≤ k1 → String.length name ≤ k2 →
  makedirs_fuel k1 name w = makedirs_fuel k2 name w.
Proof.
  revert k2 name w. induction k1 as [|k1 IH]; intros k2 name w H1 H2.
  - destruct name; [|simpl in H1; lia]. by destruct k2.
  - destruct k2 as [|k2].
    { destruct name; [done | simpl in H2; lia]. }
    cbn [makedirs_fuel].
    set (ht := if bool_decide (Path.basename name = "")
               then (Path.dirname (Path.dirname name),
                     Path.basename (Path.dirname name))
               else (Path.dirname name, Path.basename name)).
    assert (ht.2 ≠ "" → String.length ht.1 < String.length name) as Hlen.
    { subst ht. case_bool_decide as Eb; simpl.
      - intros Ht. apply PathFacts.dirname_basename_shorter in Ht.
        pose proof (PathFacts.dirname_length name). lia.
      - intros _. by apply PathFacts.dirname_basename_shorter. }
    destruct ht as [head tail]. simpl in Hlen.
    unfold bind, path_exists, try.
    destruct (bool_decide (head ≠ "")); [|done].
    case_bool_decide as Et; [|done].
    destruct (negb (on_disk head w)); [|done]. cbn [andb].
    specialize (Hlen Et). by rewrite (IH k2) by lia.
Qed.

Lemma makedirs_only name w r w' :
  makedirs name w = (r, w') → mkdirs_only (String.length name) w w'.
Proof. apply makedirs_fuel_only. Qed.

(** A path longer than [n] is on disk after such a run only if it was
    before. *)
Lemma mkdirs_only_on_disk n w w' p :
  mkdirs_only n w w' → n < String.length p → on_disk p w' = on_disk p w.
Proof.
  intros (Hf & _ & _ & Hi & Hd & _) Hn. unfold on_disk. rewrite Hf. f_equal.
  apply bool_decide_ext. split.
  - intros Hp. destruct (Hd p Hp); [done | lia].
  - intros Hp. by apply Hi.
Qed.

End OsFacts.

(** ** The content cache: [download] *)

Module CacheFacts.
Import Os OsFacts TextExtract Design.

Lemma MIMETYPES_lookup (mt : string) :
  (mt ∈ mapped_media_types → is_Some (MIMETYPES !! mt))
  ∧ (mt ∉ mapped_media_types → MIMETYPES !! mt = None).
Proof.
  unfold MIMETYPES, mapped_media_types. simpl.
  repeat (rewrite lookup_insert; case_decide;
          [subst; split; [by eauto | intros Hn; exfalso; apply Hn; set_solver] |]).
  rewrite lookup_empty. split; [|done].
  intros Hin. exfalso.
  repeat (apply elem_of_cons in Hin as [->|Hin]; [congruence|]).
  by apply elem_of_nil in Hin.
Qed.

Lemma MIMETYPES_None (mt : string) :
  MIMETYPES !! mt = None ↔ mt ∉ mapped_media_types.
Proof.
  destruct (MIMETYPES_lookup mt) as [H1 H2]. split; [|done].
  intros Hn Hin. apply H1 in Hin as [? ?]. congruence.
Qed.

(** The extensions are the five of the table, nothing else. *)
Lemma MIMETYPES_Some (mt ext : string) :
  MIMETYPES !! mt = Some ext →
  (mt, ext) ∈ [ ("application/pdf", "pdf"); ("text/html", "html");
                ("application/msword", "doc"); ("application/rtf", "rtf");
                ("application/vnd.openxmlformats-officedocument.wordprocessingml.document",
                 "docx") ].
Proof.
  unfold MIMETYPES. intros Hl. by apply elem_of_list_to_map_2 in Hl.
Qed.

Section WithCollaborators.
Context `{Collaborators}.

Lemma resolve_path_known version ext w :
  MIMETYPES !! v_media_type version = Some ext →
  resolve_path version w = (Ok (path_of version ext), w).
Proof. intros Hm. unfold resolve_path, bind, getitem. by rewrite Hm. Qed.

Lemma resolve_path_unknown version w :
  MIMETYPES !! v_media_type version = None →
  resolve_path version w = (Raise (KeyError (v_media_type version)), w).
Proof. intros Hm. unfold resolve_path, bind, getitem. by rewrite Hm. Qed.

Lemma download_unknown version w :
  MIMETYPES !! v_media_type version = None →
  download version w = (Raise (KeyError (v_media_type version)), w).
Proof.
  intros Hm. unfold download, bind. by rewrite resolve_path_unknown.
Qed.

(** A raw path is longer than its directory: it starts with [raw/]. *)
Lemma raw_filename_dirname abbr session identifier note ext :
  String.length (Path.dirname (raw_filename abbr session identifier note ext))
  < String.length (raw_filename abbr session identifier note ext).
Proof.
  apply (PathFacts.dirname_shorter _ "r"%char); [|done].
  unfold raw_filename. rewrite PathFacts.list_ascii_app. simpl. left.
Qed.

Lemma on_disk_false p w :
  on_disk p w = false → files w !! p = None ∧ p ∉ dirs w.
Proof.
  unfold on_disk. intros Hd. apply orb_false_elim in Hd as [Hf Hd].
  apply bool_decide_eq_false in Hf, Hd. split; [|done].
  destruct (files w !! p) eqn:E; [|done]. exfalso. apply Hf. eauto.
Qed.

(** A cache hit: the file is read, nothing else happens. *)
Lemma download_cached version ext data w :
  MIMETYPES !! v_media_type version = Some ext →
  files w !! path_of version ext = Some data →
  download version w
  = (Ok (Some (path_of version ext, data)),
     {| files := files w; dirs := dirs w; searchable := searchable w;
        sb_seq := sb_seq w;
        trace := trace w ++ [EvRead (path_of version ext)] |}).
Proof.
  intros Hm Hf. unfold download, bind.
  rewrite (resolve_path_known _ ext) by done.
  unfold path_exists, on_disk. rewrite Hf.
  rewrite bool_decide_eq_true_2 by eauto. simpl.
  unfold read_file. rewrite Hf. reflexivity.
Qed.

(** A cache miss, up to the request: the directory is ensured, the
    path itself stays free. *)
Lemma download_miss_makedirs version ext w r0 w0 :
  on_disk (path_of version ext) w = false →
  makedirs (Path.dirname (path_of version ext)) w = (r0, w0) →
  mkdirs_only (String.length (Path.dirname (path_of version ext))) w w0
  ∧ on_disk (path_of version ext) w0 = false.
Proof.
  intros Hd Hm. apply makedirs_only in Hm. split; [done|].
  rewrite <- Hd. eapply mkdirs_only_on_disk; [done|].
  apply raw_filename_dirname.
Qed.

(** A cache miss whose fetch fails: the handler's [click.secho] call
    passes the url where [secho] takes its output stream, and the
    [AttributeError] of the write leaves [download]; the path is
    still free afterwards. *)
Lemma download_fetch_failure version ext w :
  MIMETYPES !! v_media_type version = Some ext →
  on_disk (path_of version ext) w = false →
  http_get (v_url version) = None →
  ∃ w', download version w
        = (Raise (AttributeError "'str' object has no attribute 'write'"), w')
        ∧ on_disk (path_of version ext) w' = false
        ∧ files w' = files w.
Proof.
  intros Hm Hd Hn. unfold download, bind.
  rewrite (resolve_path_known _ ext) by done.
  unfold path_exists. rewrite Hd. simpl. unfold try.
  destruct (makedirs _ w) as [r0 w0] eqn:E0.
  destruct (download_miss_makedirs _ _ _ _ _ Hd E0) as [(Hf & _) Hd0].
  unfold scraper_urlretrieve, scraper_get, bind. simpl. rewrite Hn. simpl.
  eexists. split; [reflexivity|]. split; [|done].
  revert Hd0. unfold on_disk. by simpl.
Qed.

End WithCollaborators.

(** C9.  Path resolution in [download] raises exactly when the media
    type of the version is not one of the five keys of [MIMETYPES]; the
    error is the [KeyError] of the lookup, it leaves [download] in
    every state of the world, so also when the artifact is on disk; a
    mapped media type gets the extension of the table and no other. *)
Theorem path_resolution_fails_iff_unmapped `{Collaborators}
    (version : Version) (w : World) :
  ((∃ e, (resolve_path version w).1 = Raise e)
   ↔ v_media_type version ∉ mapped_media_types)
  ∧ (v_media_type version ∉ mapped_media_types →
     resolve_path version w = (Raise (KeyError (v_media_type version)), w)
     ∧ download version w = (Raise (KeyError (v_media_type version)), w))
  ∧ (v_media_type version ∈ mapped_media_types →
     ∃ ext, (v_media_type version, ext)
              ∈ [ ("application/pdf", "pdf"); ("text/html", "html");
                  ("application/msword", "doc"); ("application/rtf", "rtf");
                  ("application/vnd.openxmlformats-officedocument.wordprocessingml.document",
                   "docx") ]
            ∧ resolve_path version w = (Ok (path_of version ext), w)).
Proof.
  split; [|split].
  - split.
    + intros [e He] Hin.
      apply MIMETYPES_lookup in Hin as [ext Hin].
      rewrite (resolve_path_known _ ext) in He by done. discriminate.
    + intros Hn. apply MIMETYPES_None in Hn.
      rewrite resolve_path_unknown by done. eauto.
  - intros Hn. apply MIMETYPES_None in Hn.
    by rewrite resolve_path_unknown, download_unknown.
  - intros Hin. apply MIMETYPES_lookup in Hin as [ext Hin].
    exists ext. split; [by apply MIMETYPES_Some | by apply resolve_path_known].
Qed.

(** C4.  Two calls of [download] for the same version, from a state in
    which its path is not on disk and with a server that answers: both
    return the path and the bytes of the answer; the first call sends
    one request and writes the file once, the second call only reads
    the file: no request, no write. *)
Theorem download_twice `{Collaborators}
    (version : Version) (ext : string) (content : bytes) (w : World) :
  MIMETYPES !! v_media_type version = Some ext →
  http_get (v_url version) = Some content →
  on_disk (path_of version ext) w = false →
  ∃ w1 w2 ps,
    download version w = (Ok (Some (path_of version ext, content)), w1)
    ∧ download version w1 = (Ok (Some (path_of version ext, content)), w2)
    ∧ trace w1 = trace w ++ (EvMkdir <$> ps)
                   ++ [EvRequest (v_url version);
                       EvWrite (path_of version ext) content]
    ∧ trace w2 = trace w1 ++ [EvRead (path_of version ext)]
    ∧ files w1 = <[path_of version ext := content]> (files w)
    ∧ files w2 = files w1.
Proof.
  intros Hm Hc Hd.
  destruct (makedirs (Path.dirname (path_of version ext)) w) as [r0 w0] eqn:E0.
  destruct (download_miss_makedirs _ _ _ _ _ Hd E0)
    as [(Hf & _ & _ & _ & _ & ps & Ht) Hd0].
  apply on_disk_false in Hd0 as [_ Hnd].
  assert (download version w
          = (Ok (Some (path_of version ext, content)),
             {| files := <[path_of version ext := content]> (files w0);
                dirs := dirs w0; searchable := searchable w0; sb_seq := sb_seq w0;
                trace := (trace w0 ++ [EvRequest (v_url version)])
                           ++ [EvWrite (path_of version ext) content] |})) as E1.
  { unfold download, bind. rewrite (resolve_path_known _ ext) by done.
    unfold path_exists. rewrite Hd. simpl. unfold try. rewrite E0.
    unfold scraper_urlretrieve, scraper_get, bind. simpl. rewrite Hc. simpl.
    unfold write_file. simpl. by rewrite bool_decide_eq_false_2. }
  eexists _, _, ps. split; [exact E1|]. split.
  { apply download_cached; [done|]. simpl. apply lookup_insert_eq. }
  simpl. rewrite Ht, Hf. repeat split.
  by rewrite <- !app_assoc.
Qed.

(** C5, as the code has it.  The path is a function of the abbreviation
    of the jurisdiction, session, identifier, note and the extension of
    the media type: versions that agree on these get the same path, in
    every state of the world and whatever their other fields are. *)
Theorem path_determined_by_key_and_extension `{Collaborators}
    (v1 v2 : Version) (ext : string) (w1 w2 : World) :
  jid_to_abbr (v_jurisdiction_id v1) = jid_to_abbr (v_jurisdiction_id v2) →
  v_session v1 = v_session v2 →
  v_identifier v1 = v_identifier v2 →
  v_note v1 = v_note v2 →
  MIMETYPES !! v_media_type v1 = Some ext →
  MIMETYPES !! v_media_type v2 = Some ext →
  ∃ path, resolve_path v1 w1 = (Ok path, w1) ∧ resolve_path v2 w2 = (Ok path, w2).
Proof.
  intros Ha Hs Hi Hn H1 H2. exists (path_of v1 ext).
  rewrite (resolve_path_known v1 ext), (resolve_path_known v2 ext) by done.
  split; [done|]. unfold path_of. by rewrite Ha, Hs, Hi, Hn.
Qed.

Lemma download_twice_witness :
  ∃ w1 w2 ps,
    let version := Demo.row "http://leg.example/text" "application/pdf" in
    let path := "raw/nc/2019-HB 1-Filed.pdf" in
    let content := String.list_byte_of_string "text" in
    @download Demo.collaborators version Demo.world0
    = (Ok (Some (path, content)), w1)
    ∧ @download Demo.collaborators version w1 = (Ok (Some (path, content)), w2)
    ∧ trace w1 = [] ++ (EvMkdir <$> ps)
                   ++ [EvRequest "http://leg.example/text"; EvWrite path content]
    ∧ trace w2 = trace w1 ++ [EvRead path]
    ∧ files w1 = <[path := content]> ∅
    ∧ files w2 = files w1.
Proof.
  apply (@download_twice Demo.collaborators
           (Demo.row "http://leg.example/text" "application/pdf") "pdf"
           (String.list_byte_of_string "text") Demo.world0);
    vm_compute; reflexivity.
Defined.

Lemma path_determined_by_key_and_extension_witness :
  ∃ path,
    @resolve_path Demo.collaborators
      (Demo.row "http://leg.example/text" "text/html") Demo.world0
    = (Ok path, Demo.world0)
    ∧ @resolve_path Demo.collaborators
        (Demo.row "http://leg.example/down" "text/html") Demo.world0
      = (Ok path, Demo.world0).
Proof.
  apply (@path_determined_by_key_and_extension Demo.collaborators
           (Demo.row "http://leg.example/text" "text/html")
           (Demo.row "http://leg.example/down" "text/html") "html");
    vm_compute; reflexivity.
Defined.

(** C5, as the design states it, fails: two versions that agree on
    jurisdiction, session, identifier and note, one a PDF and one an
    HTML page, get different paths. *)
Lemma path_ignores_media_type_refuted :
  ¬ (∀ (C : Collaborators) (v1 v2 : Version) (w1 w2 : World),
       jid_to_abbr (v_jurisdiction_id v1) = jid_to_abbr (v_jurisdiction_id v2) →
       v_session v1 = v_session v2 →
       v_identifier v1 = v_identifier v2 →
       v_note v1 = v_note v2 →
       (resolve_path v1 w1).1 = (resolve_path v2 w2).1).
Proof.
  intros Hall.
  specialize (Hall Demo.collaborators
                (Demo.row "http://leg.example/text" "application/pdf")
                (Demo.row "http://leg.example/text" "text/html")
                Demo.world0 Demo.world0 eq_refl eq_refl eq_refl eq_refl).
  vm_compute in Hall. discriminate Hall.
Qed.

(** C3 on the code.  A version whose path is not on disk and whose
    server does not answer: [download] does not return [(None, None)],
    it raises the [AttributeError] of the [click.secho] call in its
    handler.  No file is left at the path. *)
Theorem download_fetch_failure_raises :
  (@download Demo.collaborators
     (Demo.row "http://leg.example/down" "application/pdf") Demo.world0).1
  = Raise (AttributeError "'str' object has no attribute 'write'")
  ∧ on_disk "raw/nc/2019-HB 1-Filed.pdf"
      (@download Demo.collaborators
         (Demo.row "http://leg.example/down" "application/pdf") Demo.world0).2
    = false.
Proof.
  destruct (@download_fetch_failure Demo.collaborators
              (Demo.row "http://leg.example/down" "application/pdf") "pdf"
              Demo.world0) as (w' & -> & Hd & _); [by vm_compute..|].
  split; [done|]. exact Hd.
Qed.

End CacheFacts.

(** ** The version resolver *)

Module VersionFacts.
Import TextExtract Design.

Lemma newer_or_equal_key_le (a b : BillVersion) :
  newer_or_equal a b ↔ key_le b a.
Proof.
  unfold newer_or_equal, key_le. case_decide as E.
  - split; [by right|]. intros [[_ Hn]|[_ Hle]]; [congruence | done].
  - split; [left; split; [done | congruence]|].
    intros [[Hle _]|[Heq _]]; [done | congruence].
Qed.

#[global] Instance newer_or_equal_total : Total newer_or_equal.
Proof.
  intros a b. unfold newer_or_equal.
  destruct (decide (bv_date a = bv_date b)) as [E|E].
  - rewrite decide_True by done.
    destruct (total String.le (bv_note a) (bv_note b)); auto.
  - rewrite decide_False by congruence.
    destruct (total String.le (bv_date a) (bv_date b)); auto.
Qed.

#[global] Instance newer_or_equal_trans : Transitive newer_or_equal.
Proof.
  intros a b c. unfold newer_or_equal.
  destruct (decide (bv_date a = bv_date b)) as [Eab|Eab];
    destruct (decide (bv_date b = bv_date c)) as [Ebc|Ebc];
    destruct (decide (bv_date a = bv_date c)) as [Eac|Eac];
    intros H1 H2; try congruence.
  - by etrans.
  - exfalso. apply Eab. apply (anti_symm String.le); [by rewrite Eac|done].
  - by etrans.
Qed.

(** The first row of the ordered versions is one of the versions and
    no version comes after it in the order. *)
Lemma first_of_order_by (versions : list BillVersion) :
  versions ≠ [] →
  ∃ latest, head (order_by_date_note_desc versions) = Some latest
            ∧ latest ∈ versions
            ∧ ∀ v, v ∈ versions → key_le v latest.
Proof.
  intros Hne. unfold order_by_date_note_desc.
  pose proof (merge_sort_Permutation newer_or_equal versions) as Hp.
  pose proof (StronglySorted_merge_sort newer_or_equal versions) as Hs.
  destruct (merge_sort newer_or_equal versions) as [|latest rest].
  { apply Permutation_nil_l in Hp. congruence. }
  exists latest. split; [done|]. split.
  { rewrite <- Hp. left. }
  intros v Hv. rewrite <- Hp in Hv.
  apply newer_or_equal_key_le.
  apply elem_of_cons in Hv as [->|Hv].
  - destruct (total newer_or_equal latest latest); done.
  - apply StronglySorted_inv in Hs as [_ Hall].
    rewrite Forall_forall in Hall. by apply Hall.
Qed.

End VersionFacts.

(** ** The link fallback of [update_bill] *)

Module UpdateFacts.
Import TextExtract Design.

Lemma requests_app t1 t2 : requests (t1 ++ t2) = requests t1 ++ requests t2.
Proof. apply omap_app. Qed.

Section WithCollaborators.
Context `{Collaborators}.

Lemma first_yield_None bill links :
  first_yield bill links = None ↔ Forall (λ l, link_yield bill l = None) links.
Proof.
  induction links as [|l rest IH]; simpl; [by split|].
  rewrite Forall_cons. destruct (link_yield bill l).
  - split; [done | by intros [? _]].
  - rewrite IH. split; [by split | by intros [_ ?]].
Qed.

Lemma first_yield_Some bill links l text :
  first_yield bill links = Some (l, text) →
  l ∈ links ∧ link_yield bill l = Some text.
Proof.
  induction links as [|x rest IH]; simpl; [done|].
  destruct (link_yield bill x) eqn:E.
  - intros [= -> ->]. split; [left | done].
  - intros Hr. destruct (IH Hr). split; [by right | done].
Qed.

(** The last link attempted is the first that yields, or the last
    link when none does. *)
Lemma last_attempted bill links :
  last (attempted bill links)
  = match first_yield bill links with
    | Some (l, _) => Some l
    | None => last links
    end.
Proof.
  induction links as [|x rest IH]; simpl; [done|].
  destruct (link_yield bill x); [done|].
  rewrite !last_cons, IH.
  destruct (first_yield bill rest) as [[? ?]|]; done.
Qed.

(** The links attempted are a prefix of the links: no link after the
    first that yields is attempted. *)
Lemma attempted_prefix bill links : attempted bill links `prefix_of` links.
Proof.
  induction links as [|x rest IH]; simpl; [done|].
  destruct (link_yield bill x).
  - by apply (prefix_cons x [] rest), prefix_nil.
  - by apply prefix_cons.
Qed.

Lemma truthy_false text : truthy text = false → text = "".
Proof.
  unfold truthy. intros Ht. apply negb_false_iff in Ht.
  by apply bool_decide_eq_true in Ht.
Qed.

(** The loop never raises; it requests the links to attempt, one
    request each, in their order, and ends with [final_locals]. *)
Lemma link_loop_spec bill links st w :
  raw_text st = "" →
  ∃ w', link_loop bill links st w = (Ok (final_locals bill links st), w')
        ∧ same_state w w'
        ∧ requests (trace w')
          = requests (trace w) ++ (link_url <$> attempted bill links).
Proof.
  revert st w. induction links as [|l rest IH]; intros st w Hraw.
  { exists w. simpl. unfold final_locals, ret. simpl.
    rewrite app_nil_r. destruct st; simpl in *; subst. by repeat split. }
  cbn [link_loop attempted]. unfold final_locals. cbn [first_yield].
  unfold link_yield, bind, try, scraper_get, bind.
  cbn [emit]. cbv beta iota.
  destruct (http_get (link_url l)) as [data|] eqn:Eh; cbn [ret raise].
  - unfold call_extract_text.
    destruct (extract_text data (link_metadata bill l)) as [text|] eqn:Ee;
      cbn [ret raise].
    + destruct (truthy text) eqn:Et.
      * eexists. split; [reflexivity|]. split; [by repeat split|].
        cbn [trace]. rewrite requests_app. done.
      * apply truthy_false in Et. subst text.
        edestruct (IH {| is_error := is_error st; raw_text := "";
                         link := Some l |}) as (w' & -> & Hs & Hr); [done|].
        eexists. split; [|split; [exact Hs|]].
        { unfold final_locals. rewrite last_cons.
          destruct (first_yield bill rest) as [[? ?]|]; [done|].
          cbn. by destruct (last rest). }
        rewrite Hr. cbn [trace]. rewrite requests_app. cbn.
        by rewrite <- app_assoc.
    + unfold Click.secho. cbn [emit].
      edestruct (IH {| is_error := is_error st; raw_text := raw_text st;
                       link := Some l |}) as (w' & -> & Hs & Hr); [done|].
      eexists. split; [|split; [exact Hs|]].
      { unfold final_locals. rewrite last_cons.
        destruct (first_yield bill rest) as [[? ?]|]; [done|].
        cbn. by destruct (last rest). }
      rewrite Hr. cbn [trace]. rewrite !requests_app. cbn.
      by rewrite app_nil_r, <- app_assoc.
  - edestruct (IH {| is_error := is_error st; raw_text := raw_text st;
                     link := Some l |}) as (w' & -> & Hs & Hr); [done|].
    eexists. split; [|split; [exact Hs|]].
    { unfold final_locals. rewrite last_cons.
      destruct (first_yield bill rest) as [[? ?]|]; [done|].
      cbn. by destruct (last rest). }
    rewrite Hr. cbn [trace]. rewrite requests_app. cbn.
    by rewrite <- app_assoc.
Qed.

(** The row [update_bill] creates for a version with links. *)
Lemma update_bill_with_links bill latest w :
  bv_links latest ≠ [] →
  ∃ sb w',
    update_bill_with bill latest w = (Ok (Some (sb_id sb)), w')
    ∧ searchable w' = searchable w ++ [sb]
    ∧ requests (trace w')
      = requests (trace w) ++ (link_url <$> attempted bill (bv_links latest))
    ∧ final_locals bill (bv_links latest)
        {| is_error := true; raw_text := ""; link := None |}
      = {| is_error := sb_is_error sb; raw_text := sb_raw_text sb;
           link := Some (sb_version_link sb) |}.
Proof.
  intros Hne. unfold update_bill_with, bind.
  destruct (link_loop_spec bill (bv_links latest)
              {| is_error := true; raw_text := ""; link := None |} w eq_refl)
    as (w1 & -> & (Hf & Hd & Hs & Hq) & Hr).
  assert (∃ e t l, final_locals bill (bv_links latest)
                     {| is_error := true; raw_text := ""; link := None |}
                   = {| is_error := e; raw_text := t; link := Some l |})
    as (e & t & l & ->).
  { unfold final_locals.
    destruct (first_yield bill (bv_links latest)) as [[l t]|]; [by eauto|].
    destruct (bv_links latest) as [|x rest]; [done|].
    rewrite last_cons. destruct (last rest); by eauto. }
  cbn.
  exists {| sb_id := S (sb_seq w1); sb_bill := bill_id bill;
            sb_version_link := l; sb_all_titles := bill_title bill;
            sb_raw_text := t; sb_is_error := e;
            sb_search_vector := VectorEmpty |}.
  eexists. split; [reflexivity|]. cbn.
  rewrite Hs, requests_app, Hr. cbn. by rewrite app_nil_r.
Qed.

Lemma update_bill_latest bill latest w :
  head (order_by_date_note_desc (bill_versions bill)) = Some latest →
  update_bill bill w = update_bill_with bill latest w.
Proof.
  intros Hh. unfold update_bill, bind, try.
  destruct (order_by_date_note_desc (bill_versions bill)); [done|].
  by injection Hh as ->.
Qed.

(** A latest version without links: the loop body never runs, [link]
    is unbound when the row is built. *)
Lemma update_bill_no_links bill latest w :
  head (order_by_date_note_desc (bill_versions bill)) = Some latest →
  bv_links latest = [] →
  update_bill bill w = (Raise (UnboundLocalError "link"), w).
Proof.
  intros Hh Hl. rewrite (update_bill_latest _ latest) by done.
  unfold update_bill_with. by rewrite Hl.
Qed.

End WithCollaborators.

(** C1.  For a bill whose latest version has links, [update_bill]
    requests the links in their order up to the first that yields a
    text that is not empty, and no link after it; the row it creates
    has the last link attempted, is an error row exactly when no link
    yields a text, holds the text of the link that yielded and the
    empty text when none did.  Links that are empty, failing and
    yielding [text], in this order, give [(text, third link, false)]
    after three requests; a failing and an empty link give
    [("", second link, true)]. *)
Theorem link_fallback `{Collaborators} (bill : Bill) (latest : BillVersion)
    (w : World) :
  head (order_by_date_note_desc (bill_versions bill)) = Some latest →
  bv_links latest ≠ [] →
  ∃ sb w',
    update_bill bill w = (Ok (Some (sb_id sb)), w')
    ∧ searchable w' = searchable w ++ [sb]
    ∧ requests (trace w')
      = requests (trace w) ++ (link_url <$> attempted bill (bv_links latest))
    ∧ attempted bill (bv_links latest) `prefix_of` bv_links latest
    ∧ last (attempted bill (bv_links latest)) = Some (sb_version_link sb)
    ∧ (sb_is_error sb = true
       ↔ Forall (λ l, link_yield bill l = None) (bv_links latest))
    ∧ (sb_is_error sb = true → sb_raw_text sb = "")
    ∧ (sb_is_error sb = false →
       link_yield bill (sb_version_link sb) = Some (sb_raw_text sb))
    ∧ (∀ a b c rest text,
         bv_links latest = a :: b :: c :: rest →
         link_yield bill a = None → link_yield bill b = None →
         link_yield bill c = Some text →
         (sb_raw_text sb, sb_version_link sb, sb_is_error sb) = (text, c, false)
         ∧ attempted bill (bv_links latest) = [a; b; c])
    ∧ (∀ a b,
         bv_links latest = [a; b] →
         link_yield bill a = None → link_yield bill b = None →
         (sb_raw_text sb, sb_version_link sb, sb_is_error sb) = ("", b, true)).
Proof.
  intros Hh Hne. rewrite (update_bill_latest _ latest) by done.
  destruct (update_bill_with_links bill latest w Hne)
    as (sb & w' & Hu & Hs & Hr & Hfin).
  exists sb, w'. split; [done|]. split; [done|]. split; [done|].
  split; [apply attempted_prefix|].
  pose proof (last_attempted bill (bv_links latest)) as Hlast.
  pose proof (first_yield_None bill (bv_links latest)) as Hnone.
  unfold final_locals in Hfin.
  destruct (first_yield bill (bv_links latest)) as [[l t]|] eqn:Efy.
  - (* some link yields *)
    injection Hfin as He Ht Hl. apply first_yield_Some in Efy as Hy.
    destruct Hy as [_ Hy]. subst l t.
    split; [done|]. split.
    { rewrite <- He. split; [done|]. intros HF. by apply Hnone in HF. }
    split; [by rewrite <- He|]. split; [done|]. split.
    + intros a b c rest text Hl Ha Hb Hc. rewrite Hl in Efy |- *. cbn in Efy |- *.
      rewrite Ha, Hb, Hc in Efy |- *. injection Efy as <- <-.
      by rewrite <- He.
    + intros a b Hl Ha Hb. rewrite Hl in Efy. cbn in Efy.
      by rewrite Ha, Hb in Efy.
  - (* no link yields *)
    injection Hfin as He Ht Hl.
    split; [rewrite Hlast; by destruct (last (bv_links latest))|]. split.
    { rewrite <- He. split; [intros _; by apply Hnone | done]. }
    split; [done|]. split; [by rewrite <- He|]. split.
    + intros a b c rest text Hlk Ha Hb Hc. rewrite Hlk in Efy. cbn in Efy.
      by rewrite Ha, Hb, Hc in Efy.
    + intros a b Hlk Ha Hb. rewrite Hlk in Hl. cbn in Hl.
      injection Hl as <-. by rewrite <- He, <- Ht.
Qed.

Lemma link_fallback_witness :
  ∃ sb w',
    @update_bill Demo.collaborators
      (Demo.bill 7 [Demo.version "2020-01-01" "Filed"
                      [Demo.link_empty; Demo.link_down; Demo.link_text;
                       Demo.link_garbled]])
      Demo.world0
    = (Ok (Some (sb_id sb)), w')
    ∧ (sb_raw_text sb, sb_version_link sb, sb_is_error sb)
      = ("text", Demo.link_text, false)
    ∧ requests (trace w')
      = ["http://leg.example/empty"; "http://leg.example/down";
         "http://leg.example/text"].
Proof.
  destruct (@link_fallback Demo.collaborators
              (Demo.bill 7 [Demo.version "2020-01-01" "Filed"
                              [Demo.link_empty; Demo.link_down; Demo.link_text;
                               Demo.link_garbled]])
              (Demo.version "2020-01-01" "Filed"
                 [Demo.link_empty; Demo.link_down; Demo.link_text;
                  Demo.link_garbled])
              Demo.world0)
    as (sb & w' & Hu & _ & Hr & _ & _ & _ & _ & _ & Hex & _);
    [vm_compute; reflexivity | simpl; discriminate |].
  exists sb, w'. split; [exact Hu|]. split; [|exact Hr].
  destruct (Hex Demo.link_empty Demo.link_down Demo.link_text
              [Demo.link_garbled] "text") as [Hres _];
    [reflexivity | vm_compute; reflexivity..|].
  exact Hres.
Defined.

(** C6.  A bill without versions is skipped: [update_bill] returns
    [None] and the world is as it was.  For a bill with versions,
    [update_bill] goes on with a version whose [(date, note)] key no
    version of the bill exceeds.  Of the versions 2020-01-01/a,
    2020-01-01/b and 2019-12-31/z it is 2020-01-01/b. *)
Theorem latest_version_selected `{Collaborators} (bill : Bill) (w : World) :
  (bill_versions bill = [] → update_bill bill w = (Ok None, w))
  ∧ (bill_versions bill ≠ [] →
     ∃ latest, latest ∈ bill_versions bill
               ∧ (∀ v, v ∈ bill_versions bill → key_le v latest)
               ∧ update_bill bill w = update_bill_with bill latest w)
  ∧ (∀ la lb lz,
       head (order_by_date_note_desc
               [Demo.version "2020-01-01" "a" la;
                Demo.version "2020-01-01" "b" lb;
                Demo.version "2019-12-31" "z" lz])
       = Some (Demo.version "2020-01-01" "b" lb)).
Proof.
  split; [|split].
  - intros Hnil. unfold update_bill, bind, try. by rewrite Hnil.
  - intros Hne.
    destruct (VersionFacts.first_of_order_by _ Hne) as (latest & Hh & Hin & Hmax).
    exists latest. split; [done|]. split; [done|].
    by apply update_bill_latest.
  - intros la lb lz. vm_compute. reflexivity.
Qed.

(** C2 on the code.  A bill whose only version has no link: the loop
    over the links never binds [link], building the row raises
    [UnboundLocalError], no row is created, and the error leaves
    [update] as well. *)
Theorem update_bill_without_links_raises :
  @update_bill Demo.collaborators
    (Demo.bill 7 [Demo.version "2020-01-01" "Filed" []]) Demo.world0
  = (Raise (UnboundLocalError "link"), Demo.world0)
  ∧ (@update Demo.collaborators
       [Demo.bill 7 [Demo.version "2020-01-01" "Filed" []]] "nc" 100
       Demo.world0).1
    = Raise (UnboundLocalError "link")
  ∧ searchable
      (@update Demo.collaborators
         [Demo.bill 7 [Demo.version "2020-01-01" "Filed" []]] "nc" 100
         Demo.world0).2
    = [].
Proof. vm_compute. repeat split; reflexivity. Qed.

Section Batch.
Context `{Collaborators}.

Lemma created_app t1 t2 : created (t1 ++ t2) = created t1 ++ created t2.
Proof. apply omap_app. Qed.

Lemma vector_updates_app t1 t2 :
  vector_updates (t1 ++ t2) = vector_updates t1 ++ vector_updates t2.
Proof. apply omap_app. Qed.

(** The loop over the links creates no row and issues no bulk update. *)
Lemma link_loop_trace bill links st w r w' :
  link_loop bill links st w = (r, w') →
  sb_seq w' = sb_seq w
  ∧ ∃ t, trace w' = trace w ++ t ∧ created t = [] ∧ vector_updates t = [].
Proof.
  revert st w. induction links as [|l rest IH]; intros st w; cbn [link_loop].
  { intros [= <- <-]. split; [done|]. exists []. by rewrite app_nil_r. }
  unfold bind, try, scraper_get, bind. cbn [emit]. cbv beta iota.
  destruct (http_get (link_url l)) as [data|]; cbn [ret raise].
  - unfold call_extract_text.
    destruct (extract_text data (link_metadata bill l)) as [text|];
      cbn [ret raise].
    + destruct (truthy text).
      * intros [= <- <-]. split; [done|]. by exists [EvRequest (link_url l)].
      * intros Hl. apply IH in Hl as (Hq & t & -> & Hc & Hv). split; [done|].
        exists (EvRequest (link_url l) :: t). cbn [trace].
        rewrite <- app_assoc. by repeat split.
    + unfold Click.secho. cbn [emit].
      intros Hl. apply IH in Hl as (Hq & t & -> & Hc & Hv). split; [done|].
      exists (EvRequest (link_url l) :: EvEcho (MsgException ExtractError) (Some red)
                :: t).
      cbn [trace]. rewrite <- !app_assoc. by repeat split.
  - intros Hl. apply IH in Hl as (Hq & t & -> & Hc & Hv). split; [done|].
    exists (EvRequest (link_url l) :: t). cbn [trace].
    rewrite <- app_assoc. by repeat split.
Qed.

(** What a call of [update_bill] that returns has done: it has created
    the row whose id it returns, with the next id of the sequence, or it
    has returned [None] for a bill without versions and created nothing;
    it has issued no bulk update. *)
Lemma update_bill_trace bill w r w' :
  update_bill bill w = (Ok r, w') →
  (r = None ↔ bill_versions bill = [])
  ∧ sb_seq w' = match r with Some _ => S (sb_seq w) | None => sb_seq w end
  ∧ (∀ i, r = Some i → i = S (sb_seq w))
  ∧ ∃ t, trace w' = trace w ++ t ∧ created t = option_list r
         ∧ vector_updates t = [].
Proof.
  destruct (decide (bill_versions bill = [])) as [Hnil|Hne].
  { unfold update_bill, bind, try. rewrite Hnil. cbn. intros [= <- <-].
    repeat split; try done. exists []. by rewrite app_nil_r. }
  destruct (VersionFacts.first_of_order_by _ Hne) as (latest & Hh & _ & _).
  rewrite (update_bill_latest _ latest) by done.
  unfold update_bill_with, bind.
  destruct (link_loop bill (bv_links latest)
              {| is_error := true; raw_text := ""; link := None |} w)
    as [[st|e] w1] eqn:El; [|done].
  apply link_loop_trace in El as (Hq & t & Ht & Hc & Hv).
  unfold read_local. destruct (link st) as [version_link|]; [|done].
  cbn. intros [= <- <-]. cbn. rewrite Hq, Ht.
  split; [by split|]. split; [done|]. split; [by intros i [= <-]|].
  exists (t ++ [EvCreate (S (sb_seq w))]). rewrite app_assoc. split; [done|].
  rewrite created_app, vector_updates_app, Hc, Hv. done.
Qed.

(** The loop of [update]: one entry per bill is appended, and the ids
    among the new entries are the ids of the rows created. *)
Lemma update_loop_trace bills acc w ids w' :
  update_loop bills acc w = (Ok ids, w') →
  ∃ new t,
    ids = acc ++ new
    ∧ trace w' = trace w ++ t
    ∧ vector_updates t = []
    ∧ omap (λ i, i) new = created t
    ∧ Forall2 (λ b i, i = None ↔ bill_versions b = []) bills new
    ∧ (∀ i, Some i ∈ new → sb_seq w < i)
    ∧ sb_seq w ≤ sb_seq w'.
Proof.
  revert acc w. induction bills as [|b rest IH]; intros acc w; cbn [update_loop].
  { intros [= <- <-]. exists [], []. rewrite !app_nil_r.
    repeat split; try done. intros i Hi. by apply elem_of_nil in Hi. }
  unfold bind at 1.
  destruct (update_bill b w) as [[r|e] w1] eqn:Eb; [|done].
  apply update_bill_trace in Eb as (Hr & Hq & Hi & t1 & Ht1 & Hc1 & Hv1).
  intros Hl. apply IH in Hl as (new & t & -> & Ht & Hv & Hc & HF & Hfresh & Hle).
  exists (r :: new), (t1 ++ t). rewrite <- app_assoc. split; [done|].
  split; [by rewrite Ht, Ht1, app_assoc|].
  split; [by rewrite vector_updates_app, Hv1, Hv|].
  split; [rewrite created_app, Hc1, <- Hc; by destruct r|].
  split; [by constructor|].
  split.
  - intros i Hin. apply elem_of_cons in Hin as [Hin|Hin].
    + symmetry in Hin. apply Hi in Hin. lia.
    + apply Hfresh in Hin. destruct r; lia.
  - destruct r; lia.
Qed.

End Batch.

(** C8, as the code has it.  A run of [update] that returns has issued
    the bulk search-vector update once, as its last action, so after
    every creation of a row; the list it is given has one entry for each
    selected bill, in their order: [None] for a bill without versions,
    the id of the row created for any other; the ids of the list are
    the ids of the rows created in the run, each drawn from the sequence
    after the run began. *)
Theorem vector_recomputation `{Collaborators} (bills : list Bill)
    (state : string) (n : nat) (w w' : World) :
  update bills state n w = (Ok tt, w') →
  ∃ selected ids t,
    missing_search bills (abbr_to_jid state) n w = (Ok selected, w)
    ∧ trace w' = trace w ++ t ++ [EvVectorUpdate ids]
    ∧ vector_updates t = []
    ∧ omap (λ i, i) ids = created t
    ∧ Forall2 (λ b i, i = None ↔ bill_versions b = []) selected ids
    ∧ (∀ i, Some i ∈ ids → sb_seq w < i).
Proof.
  unfold update, bind, missing_search, emit. cbv beta iota.
  set (selected := take n _).
  match goal with |- context [update_loop selected [] ?w0] =>
    destruct (update_loop selected [] w0) as [[ids|e] w1] eqn:El end; [|done].
  apply update_loop_trace in El
    as (new & t & -> & Ht & Hv & Hc & HF & Hfresh & _).
  cbn in Ht, Hfresh |- *. intros [= <-]. cbn.
  exists selected, new,
    (EvEcho (MsgSelected (length selected)) None :: t
       ++ [EvEcho (MsgUpdating (length new)) None]).
  split; [done|]. split; [rewrite Ht; cbn; by rewrite <- !app_assoc|].
  split.
  { change (vector_updates (t ++ [EvEcho (MsgUpdating (length new)) None]) = []).
    by rewrite vector_updates_app, Hv. }
  split.
  { change (omap (λ i, i) new
            = created (t ++ [EvEcho (MsgUpdating (length new)) None])).
    by rewrite created_app, <- Hc, app_nil_r. }
  split; done.
Qed.

Lemma vector_recomputation_witness :
  ∃ selected ids t,
    missing_search
      [Demo.bill 7 [Demo.version "2020-01-01" "Filed"
                      [Demo.link_garbled; Demo.link_text]];
       Demo.bill 8 []]
      Demo.nc 100 Demo.world0
    = (Ok selected, Demo.world0)
    ∧ trace (@update Demo.collaborators
               [Demo.bill 7 [Demo.version "2020-01-01" "Filed"
                               [Demo.link_garbled; Demo.link_text]];
                Demo.bill 8 []]
               "nc" 100 Demo.world0).2
      = [] ++ t ++ [EvVectorUpdate ids]
    ∧ vector_updates t = []
    ∧ omap (λ i, i) ids = created t
    ∧ Forall2 (λ b i, i = None ↔ bill_versions b = []) selected ids
    ∧ (∀ i, Some i ∈ ids → 0 < i).
Proof.
  apply (@vector_recomputation Demo.collaborators
           [Demo.bill 7 [Demo.version "2020-01-01" "Filed"
                           [Demo.link_garbled; Demo.link_text]];
            Demo.bill 8 []]
           "nc" 100 Demo.world0).
  vm_compute. reflexivity.
Defined.

(** C8, as the design states it, fails: in a run over one bill, which
    has no version and is skipped, no row is created and yet the list
    handed to the bulk update has an entry, [None]. *)
Lemma skipped_bill_has_entry :
  created (trace (@update Demo.collaborators [Demo.bill 7 []] "nc" 100
                    Demo.world0).2) = []
  ∧ vector_updates (trace (@update Demo.collaborators [Demo.bill 7 []] "nc" 100
                             Demo.world0).2) = [[None]].
Proof. vm_compute. split; reflexivity. Qed.

End UpdateFacts.

(** ** The sampling run *)

Module SampleFacts.
Import Os OsFacts TextExtract Design CacheFacts.

(** The decision after the loop, read off the counters. *)
Lemma decide_status_spec (c : Counters) :
  (decide_status c = red ↔ empty c ≠ 0 ∨ 10 < missing c)
  ∧ (decide_status c = yellow
     ↔ missing c ≠ 0 ∧ ¬ (empty c ≠ 0 ∨ 10 < missing c))
  ∧ (decide_status c = green ↔ missing c = 0 ∧ empty c = 0).
Proof.
  unfold decide_status.
  destruct (decide (empty c = 0)) as [He|He];
    destruct (decide (10 < missing c)) as [Hm|Hm];
    destruct (decide (missing c = 0)) as [Hz|Hz];
    rewrite ?(bool_decide_eq_true_2 _ He), ?(bool_decide_eq_false_2 _ He),
      ?(bool_decide_eq_true_2 _ Hm), ?(bool_decide_eq_false_2 _ Hm),
      ?(bool_decide_eq_true_2 _ Hz), ?(bool_decide_eq_false_2 _ Hz);
    cbn; repeat split; intros; try discriminate; try lia; intuition lia.
Qed.

Section WithCollaborators.
Context `{Collaborators}.

(** [download] never returns the result that stands for "not
    available": where the source has [return None, None], the
    [click.secho] call before it has raised. *)
Lemma download_returns_content version w r w' :
  download version w = (Ok r, w') →
  ∃ filename data, r = Some (filename, data) ∧ truthy filename = true.
Proof.
  unfold download, bind, resolve_path, getitem.
  destruct (MIMETYPES !! v_media_type version) as [ext|]; [|done].
  cbn [ret bind]. unfold path_exists.
  match goal with |- context [on_disk ?p w] => destruct (on_disk p w) end;
    cbn [negb].
  - unfold read_file, bind.
    match goal with |- context [files w !! ?p] => destruct (files w !! p) end;
      [|done].
    cbn. intros [= <- <-]. eauto.
  - unfold try.
    match goal with |- context [makedirs ?d w] =>
      destruct (makedirs d w) as [r0 w0] end.
    match goal with |- context [scraper_urlretrieve ?u ?f w0] =>
      destruct (scraper_urlretrieve u f w0) as [[content|e] w1] end.
    + cbn. intros [= <- <-]. eauto.
    + cbn. done.
Qed.

(** So no run of the loop that ends has counted a missing item. *)
Lemma sample_loop_missing rows quiet c w c' w' :
  sample_loop rows quiet c w = (Ok c', w') → missing c' = missing c.
Proof.
  revert c w. induction rows as [|version rows IH]; intros c w; cbn [sample_loop].
  { by intros [= <- <-]. }
  unfold bind at 1.
  destruct (download version w) as [[r|e] w1] eqn:Ed; [|done].
  apply download_returns_content in Ed as (filename & data & -> & Ht).
  rewrite Ht. cbn [negb]. unfold bind at 1.
  destruct (extract_to_file filename data version w1) as [[x|e] w2]; [|done].
  unfold bind at 1.
  match goal with |- context [(if negb quiet then ?a else ?b) w2] =>
    destruct ((if negb quiet then a else b) w2) as [[u|e] w3] end; [|done].
  intros Hl. apply IH in Hl. rewrite Hl. by case_bool_decide.
Qed.

(** A run of the loop that ends is followed by the summary line in the
    colour of the status, and [sample] returns 1 exactly on [red]. *)
Lemma sample_decides rows quiet w c w1 :
  sample_loop rows quiet {| count := 0; missing := 0; empty := 0 |} w = (Ok c, w1) →
  sample rows quiet w
  = (Ok (if bool_decide (decide_status c = red) then Some 1%Z else None),
     {| files := files w1; dirs := dirs w1; searchable := searchable w1;
        sb_seq := sb_seq w1;
        trace := trace w1 ++ [EvEcho (MsgSummary (count c) (missing c) (empty c))
                                (Some (decide_status c))] |}).
Proof.
  intros Hl. unfold sample, bind. rewrite Hl. cbn.
  by destruct (bool_decide (decide_status c = red)).
Qed.

End WithCollaborators.

(** C7 on the code.  A sampling run over one row whose document cannot
    be fetched: the run does not end with a status, it raises the
    [AttributeError] of [download]; what has happened by then is two
    directory creations and the request. *)
Theorem sample_unfetchable_row_raises :
  (@sample Demo.collaborators
     [Demo.row "http://leg.example/down" "application/pdf"] false Demo.world0).1
  = Raise (AttributeError "'str' object has no attribute 'write'")
  ∧ trace (@sample Demo.collaborators
             [Demo.row "http://leg.example/down" "application/pdf"] false
             Demo.world0).2
    = [EvMkdir "raw"; EvMkdir "raw/nc"; EvRequest "http://leg.example/down"].
Proof. vm_compute. split; reflexivity. Qed.

End SampleFacts.

(** ** The events checker *)

Module EventsFacts.
Import Scruffy Design.

Section WithCommon.
Context `{Common}.

Lemma entity_checks_unresolved event entity :
  entity_checks event entity
  = if unresolved entity then [bad_related_entity event entity] else [].
Proof.
  unfold entity_checks, unresolved, id_truthy, bad_related_entity.
  destruct (ent_id entity) as [i|]; [|done].
  destruct (negb (bool_decide (i = ""))); [|done]. cbn.
  case_bool_decide as E; [|done]. by rewrite E.
Qed.

Lemma filter_flat_map_all {A} (f : A → list Check) (l : list A) :
  (∀ x c, c ∈ f x → is_bad_related_entity c) →
  filter is_bad_related_entity (flat_map f l) = flat_map f l.
Proof.
  intros Hall. induction l as [|x l IH]; [done|]. cbn.
  rewrite filter_app, IH. f_equal.
  assert (Forall is_bad_related_entity (f x)) as HF.
  { apply Forall_forall. apply Hall. }
  induction HF as [|c cs Hc _ IHc]; [done|].
  by rewrite filter_cons_True, IHc.
Qed.

Lemma agenda_checks_expected event :
  flat_map (λ agenda, flat_map (entity_checks event) (related_entities agenda))
    (ev_agenda event)
  = expected event.
Proof.
  unfold expected. induction (ev_agenda event) as [|agenda l IH]; [done|].
  cbn. rewrite IH. f_equal.
  induction (related_entities agenda) as [|entity es IHe]; [done|].
  cbn. by rewrite IHe, entity_checks_unresolved.
Qed.

Lemma expected_bad event c :
  c ∈ expected event →
  ∃ entity, unresolved entity = true ∧ c = bad_related_entity event entity.
Proof.
  unfold expected. intros Hc. apply list_elem_of_In, in_flat_map in Hc.
  destruct Hc as (agenda & _ & Hc). apply in_flat_map in Hc.
  destruct Hc as (entity & _ & Hc).
  destruct (unresolved entity) eqn:E; [|done].
  destruct Hc as [<-|[]]. eauto.
Qed.

Lemma filter_none (l : list Check) :
  (∀ c, c ∈ l → ¬ is_bad_related_entity c) →
  filter is_bad_related_entity l = [].
Proof.
  intros Hall. induction l as [|c l IH]; [done|].
  rewrite filter_cons_False; [|apply Hall; left].
  apply IH. intros c' Hc'. apply Hall. by right.
Qed.

End WithCommon.

(** C10.  Provided [common_checks] yields no check with the tag
    [bad-related-entity]: the checks with this tag that [check] yields
    are, in their order, one check for each entity of an agenda that
    has a truthy id which [resolve] maps to [None], and no other; each
    of them carries data whose entry under ["id"] is [None], which is
    the id of no entity. *)
Theorem bad_related_entity_checks `{Common} (events : list Event) :
  (∀ event c, c ∈ common_checks event "event" "events" →
              tagname c ≠ "bad-related-entity") →
  filter is_bad_related_entity (check events) = flat_map expected events
  ∧ (∀ c, c ∈ check events → tagname c = "bad-related-entity" →
       ∃ d, data c = Some d ∧ d !! "id" = Some PyNone
            ∧ ∀ i, d !! "id" ≠ Some (PyStr i)).
Proof.
  intros Hcommon.
  assert (filter is_bad_related_entity (check events) = flat_map expected events)
    as Hfilter.
  { unfold check. induction events as [|event events IH]; [done|].
    cbn. rewrite filter_app, IH. f_equal.
    unfold event_checks. rewrite !filter_app.
    rewrite (filter_none (common_checks _ _ _))
      by (intros c Hc; exact (Hcommon _ _ Hc)).
    rewrite agenda_checks_expected.
    rewrite filter_none.
    - cbn. unfold expected. apply filter_flat_map_all.
      intros agenda c Hc. apply list_elem_of_In, in_flat_map in Hc.
      destruct Hc as (entity & _ & Hc).
      destruct (unresolved entity); [|done]. by destruct Hc as [<-|[]].
    - intros c Hc. destruct (ev_end event) as [e|]; [|by apply elem_of_nil in Hc].
      case_bool_decide; [|by apply elem_of_nil in Hc].
      apply list_elem_of_singleton in Hc as ->. done. }
  split; [done|].
  intros c Hc Htag.
  assert (c ∈ flat_map expected events) as Hexp.
  { rewrite <- Hfilter. by apply list_elem_of_filter. }
  apply list_elem_of_In, in_flat_map in Hexp as (event & _ & Hexp).
  apply list_elem_of_In, expected_bad in Hexp as (entity & _ & ->).
  eexists. split; [reflexivity|].
  rewrite lookup_insert_eq. split; [done | by intros i].
Qed.

Lemma bad_related_entity_checks_witness :
  filter is_bad_related_entity (@check Demo.nothing_resolves [Demo.committee_meeting])
  = [ {| collection := "events"; id := "NCE00000001";
         tagname := "bad-related-entity"; severity := "important";
         data := Some (<["id" := PyNone]> (<["name" := PyStr "HB 1"]> ∅)) |} ].
Proof.
  destruct (@bad_related_entity_checks Demo.nothing_resolves [Demo.committee_meeting])
    as [Hf _]; [intros event c Hc; by apply elem_of_nil in Hc|].
  rewrite Hf. reflexivity.
Defined.

End EventsFacts.

(** ** The text artifact: [extract_to_file] *)

Module ExtractFacts.
Import Os OsFacts TextExtract Design.

(** Replacing by a text that is not shorter does not shorten. *)
Lemma replace_go_length (old new : string) (k : nat) (s : string) :
  0 < String.length old → String.length old ≤ String.length new →
  String.length s ≤ String.length (replace_go old new k s) + k.
Proof.
  intros Hold Hnew. revert k. induction s as [|c s IH]; intros k; [simpl; lia|].
  cbn [replace_go]. destruct k as [|k].
  - destruct (String.prefix old (String c s)).
    + rewrite PathFacts.list_ascii_app_length.
      specialize (IH (String.length old - 1)). simpl. lia.
    + simpl. specialize (IH 0). lia.
  - specialize (IH k). simpl. lia.
Qed.

Lemma text_path_longer (filename : string) :
  String.length filename < String.length (text_path filename).
Proof.
  unfold text_path, str_replace. rewrite PathFacts.list_ascii_app_length.
  pose proof (replace_go_length "raw/" "text/" 0 filename) as Hl.
  simpl in Hl |- *. lia.
Qed.

Lemma text_path_dirname (filename : string) :
  String.length (Path.dirname (text_path filename))
  < String.length (text_path filename).
Proof.
  apply (PathFacts.dirname_shorter _ "t"%char); [|done].
  unfold text_path. rewrite PathFacts.list_ascii_app.
  apply elem_of_app. right. simpl. set_solver.
Qed.

Lemma replace_go_absent (old new s : string) :
  contains old s = false → replace_go old new 0 s = s.
Proof.
  induction s as [|c s IH]; [done|].
  cbn [contains replace_go]. intros Hc.
  apply orb_false_elim in Hc as [Hp Hc]. rewrite Hp. by rewrite IH.
Qed.

Lemma string_app_assoc (s t u : string) : (s +:+ t) +:+ u = s +:+ t +:+ u.
Proof.
  induction s as [|c s IH]; [done|].
  change (String c ((s +:+ t) +:+ u) = String c (s +:+ t +:+ u)).
  by rewrite IH.
Qed.

Lemma str_replace_raw_prefix (rest : string) :
  str_replace "raw/" "text/" ("raw/" +:+ rest)
  = "text/" +:+ str_replace "raw/" "text/" rest.
Proof.
  unfold str_replace.
  change ("raw/" +:+ rest)
    with (String "r" (String "a" (String "w" (String "/" rest)))).
  cbn [replace_go].
  assert (String.prefix "raw/"
            (String "r" (String "a" (String "w" (String "/" rest)))) = true)
    as -> by (cbn; by destruct rest).
  reflexivity.
Qed.

Section WithCollaborators.
Context `{Collaborators}.

(** X1.  Without a text there is no text artifact: when the extractor
    returns the empty text, [extract_to_file] returns [(None, 0)]; when
    the extractor raises, so does [extract_to_file]; in both cases the
    disk, the store and the log are as they were. *)
Theorem extract_to_file_without_text (filename : string) (data : bytes)
    (version : Version) (w : World) :
  (extract_text data (version_metadata version) = Some "" →
   extract_to_file filename data version w = (Ok (None, 0), w))
  ∧ (extract_text data (version_metadata version) = None →
     extract_to_file filename data version w = (Raise ExtractError, w))
  ∧ (∀ text_filename n w',
       extract_to_file filename data version w = (Ok (text_filename, n), w') →
       (n = 0 ↔ text_filename = None)
       ∧ (n = 0 ↔ extract_text data (version_metadata version) = Some "")).
Proof.
  unfold extract_to_file, bind, call_extract_text.
  destruct (extract_text data (version_metadata version)) as [text|] eqn:Ee.
  - split; [by intros [= ->]|]. split; [done|].
    intros tf n w'. cbn [ret]. destruct (truthy text) eqn:Et; cbn [negb].
    + unfold try.
      destruct (makedirs (Path.dirname _) w) as [r0 w0].
      destruct (write_file _ _ w0) as [[[]|e] w1]; [|done].
      cbn. intros [= <- <- <-].
      assert (text ≠ "") as Hne.
      { intros ->. done. }
      assert (String.length text ≠ 0) by (by destruct text).
      split; split; try done; try lia. by intros [= ->].
    + apply UpdateFacts.truthy_false in Et as ->.
      intros [= <- <- <-]. done.
  - split; [done|]. split; [done|]. intros tf n w'. done.
Qed.

(** X2.  With a text, the text artifact is written and nothing else
    changes: for a text that is not empty and a text path that is not a
    directory, [extract_to_file] returns the text path and the length of
    the text, which is not 0; afterwards the file at the text path holds
    the text; the text path is longer than the raw path, so the raw
    artifact is not the file written; the store is as it was, and the log
    has grown by directory creations and the one write. *)
Theorem extract_to_file_writes_text (filename : string) (data : bytes)
    (version : Version) (text : string) (w : World) :
  extract_text data (version_metadata version) = Some text →
  text ≠ "" →
  text_path filename ∉ dirs w →
  ∃ w' ps,
    extract_to_file filename data version w
    = (Ok (Some (text_path filename), String.length text), w')
    ∧ 0 < String.length text
    ∧ text_path filename ≠ filename
    ∧ files w' = <[text_path filename := String.list_byte_of_string text]> (files w)
    ∧ files w' !! filename = files w !! filename
    ∧ searchable w' = searchable w ∧ sb_seq w' = sb_seq w
    ∧ trace w'
      = trace w ++ (EvMkdir <$> ps)
          ++ [EvWrite (text_path filename) (String.list_byte_of_string text)].
Proof.
  intros He Hne Hnd.
  assert (text_path filename ≠ filename) as Hdiff.
  { intros Heq. pose proof (text_path_longer filename). rewrite Heq in *. lia. }
  unfold extract_to_file, bind, call_extract_text. rewrite He. cbn [ret].
  assert (truthy text = true) as ->.
  { unfold truthy. by rewrite bool_decide_eq_false_2. }
  cbn [negb]. unfold try. fold (text_path filename).
  destruct (makedirs (Path.dirname (text_path filename)) w) as [r0 w0] eqn:E0.
  apply makedirs_only in E0 as (Hf & Hs & Hq & _ & Hd & ps & Ht).
  assert (text_path filename ∉ dirs w0) as Hnd0.
  { intros Hin. apply Hd in Hin as [Hin|Hin]; [done|].
    pose proof (text_path_dirname filename). lia. }
  unfold write_file. rewrite bool_decide_eq_false_2 by done.
  cbn. eexists _, ps. split; [reflexivity|]. cbn.
  split; [destruct text; [done | simpl; lia]|].
  split; [done|]. split; [by rewrite Hf|].
  split; [by rewrite lookup_insert_ne, Hf|].
  split; [done|]. split; [done|]. by rewrite Ht, <- app_assoc.
Qed.

End WithCollaborators.

Lemma extract_to_file_writes_text_witness :
  ∃ w' ps,
    @extract_to_file Demo.collaborators "raw/nc/2019-HB 1-Filed.html"
      (String.list_byte_of_string "text")
      (Demo.row "http://leg.example/text" "text/html") Demo.world0
    = (Ok (Some (text_path "raw/nc/2019-HB 1-Filed.html"), 4), w')
    ∧ 0 < 4
    ∧ text_path "raw/nc/2019-HB 1-Filed.html" ≠ "raw/nc/2019-HB 1-Filed.html"
    ∧ files w' = <[text_path "raw/nc/2019-HB 1-Filed.html"
                   := String.list_byte_of_string "text"]> ∅
    ∧ files w' !! "raw/nc/2019-HB 1-Filed.html" = None
    ∧ searchable w' = [] ∧ sb_seq w' = 0
    ∧ trace w'
      = [] ++ (EvMkdir <$> ps)
          ++ [EvWrite (text_path "raw/nc/2019-HB 1-Filed.html")
                (String.list_byte_of_string "text")].
Proof.
  apply (@extract_to_file_writes_text Demo.collaborators
           "raw/nc/2019-HB 1-Filed.html" (String.list_byte_of_string "text")
           (Demo.row "http://leg.example/text" "text/html") "text" Demo.world0);
    [vm_compute; reflexivity | discriminate | vm_compute; set_solver].
Defined.

(** X3.  The text artifact mirrors the raw artifact: for a raw path
    [raw/<rest>] whose rest does not contain [raw/], the text path is
    [text/<rest>.txt]. *)
Theorem text_path_mirrors_raw_path (abbr session identifier note ext : string) :
  contains "raw/"
    (abbr +:+ "/" +:+ session +:+ "-" +:+ identifier +:+ "-" +:+ note
       +:+ "." +:+ ext) = false →
  text_path (raw_filename abbr session identifier note ext)
  = "text/" +:+ abbr +:+ "/" +:+ session +:+ "-" +:+ identifier +:+ "-"
      +:+ note +:+ "." +:+ ext +:+ ".txt".
Proof.
  intros Hc. unfold text_path, raw_filename.
  rewrite str_replace_raw_prefix. unfold str_replace.
  rewrite (replace_go_absent _ _ _ Hc). by rewrite !string_app_assoc.
Qed.

Lemma text_path_mirrors_raw_path_witness :
  text_path (raw_filename "nc" "2019" "HB 1" "Filed" "pdf")
  = "text/nc/2019-HB 1-Filed.pdf.txt".
Proof.
  apply (text_path_mirrors_raw_path "nc" "2019" "HB 1" "Filed" "pdf").
  vm_compute. reflexivity.
Defined.

End ExtractFacts.

(** ** The content cache, once more: what [download] leaves alone *)

Module CacheReuse.
Import Os OsFacts TextExtract Design CacheFacts.

Lemma requests_mkdirs (ps : list string) : requests (EvMkdir <$> ps) = [].
Proof. induction ps as [|p ps IH]; [done|]. exact IH. Qed.

Section WithCollaborators.
Context `{Collaborators}.

(** A cache miss whose fetch succeeds. *)
Lemma download_miss_fetched version ext content w :
  MIMETYPES !! v_media_type version = Some ext →
  http_get (v_url version) = Some content →
  on_disk (path_of version ext) w = false →
  ∃ w1 ps,
    download version w = (Ok (Some (path_of version ext, content)), w1)
    ∧ files w1 = <[path_of version ext := content]> (files w)
    ∧ trace w1 = trace w ++ (EvMkdir <$> ps)
                   ++ [EvRequest (v_url version);
                       EvWrite (path_of version ext) content].
Proof.
  intros Hm Hc Hd.
  destruct (makedirs (Path.dirname (path_of version ext)) w) as [r0 w0] eqn:E0.
  destruct (download_miss_makedirs _ _ _ _ _ Hd E0)
    as [(Hf & _ & _ & _ & _ & ps & Ht) Hd0].
  apply on_disk_false in Hd0 as [_ Hnd].
  eexists _, ps. split.
  { unfold download, bind. rewrite (resolve_path_known _ ext) by done.
    unfold path_exists. rewrite Hd. simpl. unfold try. rewrite E0.
    unfold scraper_urlretrieve, scraper_get, bind. simpl. rewrite Hc. simpl.
    unfold write_file. simpl. rewrite bool_decide_eq_false_2 by done.
    reflexivity. }
  simpl. rewrite Hf, Ht. split; [done|]. by rewrite <- !app_assoc.
Qed.

End WithCollaborators.

(** X4.  [download] never overwrites: whatever the version, the state
    of the disk and the answer of the server, every file that was on
    disk before the call is on disk after it with the same content, no
    directory is removed, and the store is as it was; the only path whose
    file can differ afterwards is the path of the version, and only if
    nothing was on disk there before. *)
Theorem download_never_overwrites `{Collaborators} (version : Version) (w : World) :
  files w ⊆ files (download version w).2
  ∧ dirs w ⊆ dirs (download version w).2
  ∧ searchable (download version w).2 = searchable w
  ∧ sb_seq (download version w).2 = sb_seq w
  ∧ ∀ p, files (download version w).2 !! p ≠ files w !! p →
         ∃ ext, MIMETYPES !! v_media_type version = Some ext
                ∧ p = path_of version ext ∧ on_disk p w = false.
Proof.
  unfold download, bind, resolve_path, getitem.
  destruct (MIMETYPES !! v_media_type version) as [ext|] eqn:Em;
    [|by repeat split].
  cbn [ret bind]. fold (path_of version ext). unfold path_exists.
  destruct (on_disk (path_of version ext) w) eqn:Hd; cbn [negb].
  - unfold read_file.
    destruct (files w !! path_of version ext); by repeat split.
  - unfold try.
    destruct (makedirs (Path.dirname (path_of version ext)) w) as [r0 w0] eqn:E0.
    destruct (download_miss_makedirs _ _ _ _ _ Hd E0)
      as [(Hf & Hs & Hq & Hi & _) Hd0].
    apply on_disk_false in Hd as [Hnone _].
    unfold scraper_urlretrieve, scraper_get, bind. cbn [emit].
    destruct (http_get (v_url version)) as [content|]; cbn [ret raise].
    + unfold write_file. cbn [dirs].
      case_bool_decide; cbn.
      * rewrite Hf. by repeat split.
      * rewrite Hf. split; [by apply insert_subseteq|].
        repeat split; try done.
        intros p Hp. exists ext. split; [done|].
        destruct (decide (p = path_of version ext)) as [->|Hne].
        -- split; [done|]. unfold on_disk.
           rewrite Hnone. apply on_disk_false in Hd0 as [_ Hnd].
           rewrite bool_decide_eq_false_2 by (by intros [? ?]).
           rewrite bool_decide_eq_false_2; [done|].
           intros Hin. apply Hnd. by apply Hi.
        -- by rewrite lookup_insert_ne in Hp.
    + cbn. rewrite Hf. by repeat split.
Qed.

(** X5.  Two rows that share a path share its content: when two
    versions agree on jurisdiction abbreviation, session, identifier,
    note and extension, and the first is downloaded from a state where
    the path is not on disk, then the download of the second returns the
    bytes fetched for the first and sends no request: its own url is
    never asked. *)
Theorem shared_path_reuses_content `{Collaborators} (v1 v2 : Version)
    (ext : string) (content : bytes) (w : World) :
  jid_to_abbr (v_jurisdiction_id v1) = jid_to_abbr (v_jurisdiction_id v2) →
  v_session v1 = v_session v2 →
  v_identifier v1 = v_identifier v2 →
  v_note v1 = v_note v2 →
  MIMETYPES !! v_media_type v1 = Some ext →
  MIMETYPES !! v_media_type v2 = Some ext →
  http_get (v_url v1) = Some content →
  on_disk (path_of v1 ext) w = false →
  ∃ w1 w2,
    download v1 w = (Ok (Some (path_of v1 ext, content)), w1)
    ∧ download v2 w1 = (Ok (Some (path_of v1 ext, content)), w2)
    ∧ requests (trace w2) = requests (trace w) ++ [v_url v1]
    ∧ files w2 = files w1.
Proof.
  intros Ha Hs Hi Hn Hm1 Hm2 Hc Hd.
  destruct (download_miss_fetched v1 ext content w Hm1 Hc Hd)
    as (w1 & ps & E1 & Hf1 & Ht1).
  assert (path_of v2 ext = path_of v1 ext) as Hp.
  { unfold path_of. by rewrite Ha, Hs, Hi, Hn. }
  assert (files w1 !! path_of v2 ext = Some content) as Hhit.
  { rewrite Hp, Hf1. apply lookup_insert_eq. }
  eexists w1, _. split; [exact E1|]. split.
  { rewrite (download_cached v2 ext content w1 Hm2 Hhit). by rewrite Hp. }
  cbn. split; [|done].
  rewrite UpdateFacts.requests_app, Ht1, !UpdateFacts.requests_app, requests_mkdirs.
  cbn. by rewrite app_nil_r.
Qed.

Lemma shared_path_reuses_content_witness :
  ∃ w1 w2,
    @download Demo.collaborators
      (Demo.row "http://leg.example/text" "application/pdf") Demo.world0
    = (Ok (Some ("raw/nc/2019-HB 1-Filed.pdf", String.list_byte_of_string "text")),
       w1)
    ∧ @download Demo.collaborators
        (Demo.row "http://leg.example/empty" "application/pdf") w1
      = (Ok (Some ("raw/nc/2019-HB 1-Filed.pdf",
                   String.list_byte_of_string "text")), w2)
    ∧ requests (trace w2) = [] ++ ["http://leg.example/text"]
    ∧ files w2 = files w1.
Proof.
  apply (@shared_path_reuses_content Demo.collaborators
           (Demo.row "http://leg.example/text" "application/pdf")
           (Demo.row "http://leg.example/empty" "application/pdf") "pdf"
           (String.list_byte_of_string "text") Demo.world0);
    vm_compute; reflexivity.
Defined.

End CacheReuse.

(** ** The store: what [update_bill] and [update] do to it *)

Module StoreFacts.
Import Os TextExtract Design UpdateFacts.

Lemma disk_events_app t1 t2 : disk_events (t1 ++ t2) = disk_events t1 ++ disk_events t2.
Proof. apply filter_app. Qed.

Section WithCollaborators.
Context `{Collaborators}.

(** The loop over the links stays off the disk and the store. *)
Lemma link_loop_no_disk bill links st w r w' :
  link_loop bill links st w = (r, w') →
  files w' = files w ∧ dirs w' = dirs w ∧ searchable w' = searchable w
  ∧ ∃ t, trace w' = trace w ++ t ∧ disk_events t = [].
Proof.
  revert st w. induction links as [|l rest IH]; intros st w; cbn [link_loop].
  { intros [= <- <-]. repeat split. exists []. by rewrite app_nil_r. }
  unfold bind, try, scraper_get, bind. cbn [emit]. cbv beta iota.
  destruct (http_get (link_url l)) as [data|]; cbn [ret raise].
  - unfold call_extract_text.
    destruct (extract_text data (link_metadata bill l)) as [text|];
      cbn [ret raise].
    + destruct (truthy text).
      * intros [= <- <-]. repeat split. by exists [EvRequest (link_url l)].
      * intros Hl. apply IH in Hl as (Hf & Hd & Hs & t & -> & Ht).
        repeat split; try done.
        exists (EvRequest (link_url l) :: t). cbn [trace].
        by rewrite <- app_assoc.
    + unfold Click.secho. cbn [emit].
      intros Hl. apply IH in Hl as (Hf & Hd & Hs & t & -> & Ht).
      repeat split; try done.
      exists (EvRequest (link_url l) :: EvEcho (MsgException ExtractError) (Some red)
                :: t).
      cbn [trace]. by rewrite <- !app_assoc.
  - intros Hl. apply IH in Hl as (Hf & Hd & Hs & t & -> & Ht).
    repeat split; try done.
    exists (EvRequest (link_url l) :: t). cbn [trace].
    by rewrite <- app_assoc.
Qed.

(** Everything a call of [update_bill] does to the world. *)
Lemma update_bill_effect bill w r w' :
  update_bill bill w = (r, w') →
  files w' = files w ∧ dirs w' = dirs w
  ∧ (∃ t, trace w' = trace w ++ t ∧ disk_events t = [])
  ∧ match r with
    | Ok (Some i) =>
        i = S (sb_seq w) ∧ sb_seq w' = i
        ∧ ∃ sb, searchable w' = searchable w ++ [sb]
                ∧ sb_id sb = i ∧ sb_bill sb = bill_id bill
                ∧ sb_all_titles sb = bill_title bill
                ∧ sb_search_vector sb = VectorEmpty
    | _ => searchable w' = searchable w ∧ sb_seq w' = sb_seq w
    end.
Proof.
  unfold update_bill, bind, try.
  destruct (order_by_date_note_desc (bill_versions bill)) as [|latest others];
    cbn [first_row ret raise].
  { intros [= <- <-]. repeat split. exists []. by rewrite app_nil_r. }
  unfold update_bill_with, bind.
  destruct (link_loop bill (bv_links latest)
              {| is_error := true; raw_text := ""; link := None |} w)
    as [r1 w1] eqn:El.
  pose proof (link_loop_trace _ _ _ _ _ _ El) as (Hq & _).
  apply link_loop_no_disk in El as (Hf & Hd & Hs & t & Ht & Hdisk).
  destruct r1 as [st|e].
  - unfold read_local. destruct (link st) as [version_link|].
    + cbn. intros [= <- <-]. cbn. rewrite Hq, Hs.
      split; [done|]. split; [done|]. split.
      { exists (t ++ [EvCreate (S (sb_seq w))]).
        rewrite Ht, <- app_assoc. split; [done|].
        by rewrite disk_events_app, Hdisk. }
      split; [done|]. split; [done|]. eexists. split; [reflexivity|]. done.
    + cbn. intros [= <- <-]. repeat split; try done. by exists t.
  - intros [= <- <-]. repeat split; try done. by exists t.
Qed.

(** The loop of [update], seen from the store. *)
Lemma update_loop_store bills acc w ids w' :
  update_loop bills acc w = (Ok ids, w') →
  ∃ new rows,
    ids = acc ++ new
    ∧ searchable w' = searchable w ++ rows
    ∧ sb_id <$> rows = omap (λ i, i) new
    ∧ Forall (λ sb, sb_seq w < sb_id sb) rows
    ∧ (∀ b, b ∈ bills → bill_versions b ≠ [] →
            ∃ sb, sb ∈ rows ∧ sb_bill sb = bill_id b)
    ∧ sb_seq w ≤ sb_seq w'.
Proof.
  revert acc w. induction bills as [|b rest IH]; intros acc w; cbn [update_loop].
  { intros [= <- <-]. exists [], []. rewrite !app_nil_r.
    repeat split; try done. intros b Hb. by apply elem_of_nil in Hb. }
  unfold bind at 1.
  destruct (update_bill b w) as [[r|e] w1] eqn:Eb; [|done].
  pose proof (update_bill_trace _ _ _ _ Eb) as (Hnone & _).
  apply update_bill_effect in Eb as (_ & _ & _ & Hr).
  intros Hl. apply IH in Hl as (new & rows & -> & Hs & Hids & Hfresh & Hrows & Hle).
  destruct r as [i|].
  - destruct Hr as (-> & Hq & sb & Hs1 & Hid & Hbill & _).
    exists (Some (S (sb_seq w)) :: new), (sb :: rows).
    rewrite <- app_assoc. split; [done|].
    split; [by rewrite Hs, Hs1, <- app_assoc|].
    split; [cbn; by rewrite Hid, Hids|].
    split.
    { constructor; [lia|]. eapply Forall_impl; [exact Hfresh|].
      intros sb' Hsb'. cbn in Hsb'. lia. }
    split; [|lia].
    intros b' Hb' Hv. apply elem_of_cons in Hb' as [->|Hb'].
    + exists sb. split; [left | done].
    + destruct (Hrows b' Hb' Hv) as (sb' & Hin & Hb). exists sb'.
      split; [by right | done].
  - destruct Hr as (Hs1 & Hq).
    exists (None :: new), rows. rewrite <- app_assoc. split; [done|].
    split; [by rewrite Hs, Hs1|]. split; [done|].
    split; [by rewrite <- Hq|]. split; [|lia].
    intros b' Hb' Hv. apply elem_of_cons in Hb' as [->|Hb'].
    + exfalso. apply Hv. by apply Hnone.
    + by apply Hrows.
Qed.

End WithCollaborators.

(** X6.  The update path stays off the disk: whatever the bill and
    whatever happens to its links, [update_bill] leaves every file and
    directory as it was, and nothing it logs is a read, a write or a
    directory creation.  Raw artifacts are neither used nor produced. *)
Theorem update_bill_bypasses_disk `{Collaborators} (bill : Bill) (w : World) :
  files (update_bill bill w).2 = files w
  ∧ dirs (update_bill bill w).2 = dirs w
  ∧ ∃ t, trace (update_bill bill w).2 = trace w ++ t ∧ disk_events t = [].
Proof.
  destruct (update_bill bill w) as [r w'] eqn:Eu.
  apply update_bill_effect in Eu as (Hf & Hd & Ht & _). done.
Qed.

(** X7.  [update_bill] adds at most one row and touches no other: when
    it returns an id, the table has grown by exactly one row at its end,
    with that id, which is the next key of the sequence, the id and the
    title of the bill, and an empty search vector; in every other case
    (the bill is skipped, or an error is raised) the table and the
    sequence are as they were. *)
Theorem update_bill_appends_one_row `{Collaborators} (bill : Bill) (w : World) :
  match update_bill bill w with
  | (Ok (Some i), w') =>
      i = S (sb_seq w) ∧ sb_seq w' = i
      ∧ ∃ sb, searchable w' = searchable w ++ [sb]
              ∧ sb_id sb = i ∧ sb_bill sb = bill_id bill
              ∧ sb_all_titles sb = bill_title bill
              ∧ sb_search_vector sb = VectorEmpty
  | (_, w') => searchable w' = searchable w ∧ sb_seq w' = sb_seq w
  end.
Proof.
  destruct (update_bill bill w) as [r w'] eqn:Eu.
  apply update_bill_effect in Eu as (_ & _ & _ & Hr).
  destruct r as [[i|]|e]; done.
Qed.

(** X8.  A bill that got its row is not selected again: after a run of
    [update] that returns, a bill of the run that has a version is in no
    later selection of bills without a searchable row, whatever the
    store of bills, the jurisdiction and the limit asked for. *)
Theorem processed_bill_not_selected_again `{Collaborators}
    (bills : list Bill) (state : string) (n : nat) (w w' : World)
    (selected : list Bill) (b : Bill)
    (bills' : list Bill) (jid : string) (n' : nat) (selected' : list Bill) :
  update bills state n w = (Ok tt, w') →
  missing_search bills (abbr_to_jid state) n w = (Ok selected, w) →
  b ∈ selected →
  bill_versions b ≠ [] →
  missing_search bills' jid n' w' = (Ok selected', w') →
  b ∉ selected'.
Proof.
  unfold update, bind, emit. cbv beta iota.
  intros Hu Hsel Hb Hv Hsel' Hb'.
  rewrite Hsel in Hu. cbv beta iota in Hu.
  match type of Hu with context [update_loop selected [] ?w0] =>
    destruct (update_loop selected [] w0) as [[ids|e] w1] eqn:El end; [|done].
  apply update_loop_store in El as (new & rows & -> & Hs & _ & _ & Hrows & _).
  destruct (Hrows b Hb Hv) as (sb & Hin & Hbill).
  injection Hu as <-. cbn in Hsel', Hs.
  unfold missing_search in Hsel'. injection Hsel' as <-.
  apply (subseteq_take n') in Hb'.
  apply list_elem_of_filter in Hb' as [[_ Hall] _].
  cbn in Hall. rewrite Forall_fmap, Hs, Forall_app in Hall.
  destruct Hall as [_ Hall]. rewrite Forall_forall in Hall.
  specialize (Hall sb Hin). cbn in Hall.
  by case_bool_decide.
Qed.

(** X9.  Only the rows of the run get a search vector: after a run of
    [update] that returns, from a table whose keys do not exceed the
    sequence, the table is the table before the run, row for row
    unchanged, followed by the rows created in the run, each with a key
    drawn in the run and with the weighted vector of its own titles and
    text. *)
Theorem update_computes_new_vectors_only `{Collaborators}
    (bills : list Bill) (state : string) (n : nat) (w w' : World) :
  update bills state n w = (Ok tt, w') →
  Forall (λ sb, sb_id sb ≤ sb_seq w) (searchable w) →
  ∃ new,
    searchable w' = searchable w ++ new
    ∧ Forall (λ sb, sb_seq w < sb_id sb
                    ∧ sb_search_vector sb
                      = VectorWeighted (sb_all_titles sb) (sb_raw_text sb)) new.
Proof.
  unfold update, bind, missing_search, emit. cbv beta iota.
  set (selected := take n _).
  match goal with |- context [update_loop selected [] ?w0] =>
    destruct (update_loop selected [] w0) as [[ids|e] w1] eqn:El end; [|done].
  apply update_loop_store in El as (new & rows & -> & Hs & Hids & Hfresh & _ & _).
  cbn in Hs, Hfresh |- *. intros [= <-] Hold. cbn.
  rewrite Hs, fmap_app.
  assert (∀ i, Some i ∈ new ↔ i ∈ sb_id <$> rows) as Hmem.
  { intros i. rewrite Hids, list_elem_of_omap. split.
    - intros Hi. by exists (Some i).
    - by intros (o & Ho & ->). }
  eexists. split; [f_equal|].
  - rewrite <- (list_fmap_id (searchable w)) at 2.
    apply Forall_fmap_ext. eapply Forall_impl; [exact Hold|].
    intros sb Hsb. cbn in Hsb |- *. rewrite bool_decide_eq_false_2; [done|].
    intros Hin. apply Hmem, list_elem_of_fmap in Hin as (sb' & Heq & Hin').
    rewrite Forall_forall in Hfresh. specialize (Hfresh sb' Hin'). cbn in Hfresh.
    lia.
  - rewrite Forall_fmap. rewrite Forall_forall in Hfresh |- *.
    intros sb Hin. cbn. rewrite bool_decide_eq_true_2.
    + cbn. split; [by apply Hfresh | done].
    + apply Hmem, list_elem_of_fmap. by exists sb.
Qed.

Lemma processed_bill_not_selected_again_witness :
  Demo.bill 7 [Demo.version "2020-01-01" "Filed" [Demo.link_text]] ∉ ([] : list Bill).
Proof.
  apply (@processed_bill_not_selected_again Demo.collaborators
           [Demo.bill 7 [Demo.version "2020-01-01" "Filed" [Demo.link_text]]]
           "nc" 100 Demo.world0
           (@update Demo.collaborators
              [Demo.bill 7 [Demo.version "2020-01-01" "Filed" [Demo.link_text]]]
              "nc" 100 Demo.world0).2
           [Demo.bill 7 [Demo.version "2020-01-01" "Filed" [Demo.link_text]]]
           (Demo.bill 7 [Demo.version "2020-01-01" "Filed" [Demo.link_text]])
           [Demo.bill 7 [Demo.version "2020-01-01" "Filed" [Demo.link_text]]]
           Demo.nc 5 []);
    [vm_compute; reflexivity | vm_compute; reflexivity | left | discriminate
    | vm_compute; reflexivity].
Defined.

Lemma update_computes_new_vectors_only_witness :
  ∃ new,
    searchable
      (@update Demo.collaborators
         [Demo.bill 7 [Demo.version "2020-01-01" "Filed" [Demo.link_text]];
          Demo.bill 8 []]
         "nc" 100 Demo.world0).2
    = [] ++ new
    ∧ Forall (λ sb, 0 < sb_id sb
                    ∧ sb_search_vector sb
                      = VectorWeighted (sb_all_titles sb) (sb_raw_text sb)) new.
Proof.
  apply (@update_computes_new_vectors_only Demo.collaborators
           [Demo.bill 7 [Demo.version "2020-01-01" "Filed" [Demo.link_text]];
            Demo.bill 8 []]
           "nc" 100 Demo.world0);
    [vm_compute; reflexivity | constructor].
Defined.

End StoreFacts.

(** ** The events checker, once more: the checks of [check] itself *)

Module EventsShape.
Import Scruffy Design EventsFacts.

Section WithCommon.
Context `{Common}.

Lemma filter_ends_none (l : list Check) :
  (∀ c, c ∈ l → ¬ is_ends_before_it_starts c) →
  filter is_ends_before_it_starts l = [].
Proof.
  intros Hall. induction l as [|c l IH]; [done|].
  rewrite filter_cons_False; [|apply Hall; left].
  apply IH. intros c' Hc'. apply Hall. by right.
Qed.

End WithCommon.

(** X10.  Every check that [check] yields belongs to an event of the
    collection: it is one of the common checks of the event, or it is a
    check on the collection [events], of severity [important], under the
    id of the event, that is either the check of an event whose end lies
    before its start, without data, or the check of an unresolved entity
    of one of the agenda items of the event. *)
Theorem check_yields_event_checks `{Common} (events : list Event) (c : Check) :
  c ∈ check events →
  ∃ event, event ∈ events
    ∧ (c ∈ common_checks event "event" "events"
       ∨ (collection c = "events" ∧ id c = ev_id event
          ∧ severity c = "important"
          ∧ ((c = ends_before_it_starts event
              ∧ ∃ e, ev_end event = Some e ∧ (e < ev_when event)%Z)
             ∨ ∃ agenda entity,
                 agenda ∈ ev_agenda event
                 ∧ entity ∈ related_entities agenda
                 ∧ unresolved entity = true
                 ∧ c = bad_related_entity event entity))).
Proof.
  unfold check. intros Hc.
  apply list_elem_of_In, in_flat_map in Hc as (event & Hev & Hc).
  exists event. split; [by apply list_elem_of_In|].
  unfold event_checks in Hc. apply in_app_or in Hc as [Hc|Hc].
  { left. by apply list_elem_of_In. }
  right. apply in_app_or in Hc as [Hc|Hc].
  - destruct (ev_end event) as [e|] eqn:Ee; [|done].
    case_bool_decide as Hlt; [|done]. destruct Hc as [<-|[]].
    repeat split. left. split; [done|]. by exists e.
  - apply in_flat_map in Hc as (agenda & Hag & Hc).
    apply in_flat_map in Hc as (entity & Hen & Hc).
    rewrite entity_checks_unresolved in Hc.
    destruct (unresolved entity) eqn:Eu; [|done]. destruct Hc as [<-|[]].
    repeat split. right. exists agenda, entity.
    repeat split; try done; by apply list_elem_of_In.
Qed.

Lemma check_yields_event_checks_witness :
  ∃ event, event ∈ [Demo.mistimed_hearing; Demo.committee_meeting]
           ∧ "NCE00000001" = ev_id event.
Proof.
  destruct (@check_yields_event_checks Demo.nothing_resolves
              [Demo.mistimed_hearing; Demo.committee_meeting]
              (bad_related_entity Demo.committee_meeting
                 {| ent_type := "bill"; ent_id := Some "NCB00001234";
                    ent_name := "HB 1" |}))
    as (event & Hin & Hcase); [vm_compute; right; left|].
  exists event. split; [exact Hin|].
  destruct Hcase as [Hc | (_ & Hid & _)]; [|exact Hid].
  vm_compute in Hc. by apply elem_of_nil in Hc.
Defined.

(** X11.  Provided [common_checks] yields no check with the tag
    [ends-before-it-starts]: the checks with this tag that [check]
    yields are, in the order of the events, one check for each event
    whose end is set and lies before its start, and none for any other
    event, in particular none for an event without an end. *)
Theorem ends_before_it_starts_checks `{Common} (events : list Event) :
  (∀ event c, c ∈ common_checks event "event" "events" →
              tagname c ≠ "ends-before-it-starts") →
  filter is_ends_before_it_starts (check events)
  = flat_map (λ event, if ends_early event
                       then [ends_before_it_starts event] else []) events.
Proof.
  intros Hcommon. unfold check.
  induction events as [|event events IH]; [done|].
  cbn. rewrite filter_app, IH. f_equal.
  unfold event_checks. rewrite !filter_app.
  rewrite (filter_ends_none (common_checks _ _ _))
    by (intros c Hc; exact (Hcommon _ _ Hc)).
  rewrite agenda_checks_expected.
  rewrite (filter_ends_none (expected event)).
  - rewrite app_nil_r. cbn. unfold ends_early.
    destruct (ev_end event) as [e|]; [|done].
    case_bool_decide; [|done]. by rewrite filter_cons_True.
  - intros c Hc. apply expected_bad in Hc as (entity & _ & ->). done.
Qed.

Lemma ends_before_it_starts_checks_witness :
  filter is_ends_before_it_starts
    (@check Demo.nothing_resolves [Demo.mistimed_hearing; Demo.committee_meeting])
  = [ends_before_it_starts Demo.mistimed_hearing].
Proof.
  rewrite (@ends_before_it_starts_checks Demo.nothing_resolves
             [Demo.mistimed_hearing; Demo.committee_meeting]); [reflexivity|].
  intros event c Hc. by apply elem_of_nil in Hc.
Defined.

End EventsShape.

(** ** The sampling run, once more: the runs that end *)

Module SampleRuns.
Import Os OsFacts TextExtract Design CacheFacts SampleFacts.

Lemma echoes_app t1 t2 : echoes (t1 ++ t2) = echoes t1 ++ echoes t2.
Proof. apply omap_app. Qed.

Lemma echoes_mkdirs (ps : list string) : echoes (EvMkdir <$> ps) = [].
Proof. induction ps as [|p ps IH]; [done|]. exact IH. Qed.

Section WithCollaborators.
Context `{Collaborators}.

(** A [download] that returns has printed nothing. *)
Lemma download_ok_log version w r w' :
  download version w = (Ok r, w') →
  ∃ t, trace w' = trace w ++ t ∧ echoes t = [].
Proof.
  unfold download, bind, resolve_path, getitem.
  destruct (MIMETYPES !! v_media_type version) as [ext|]; [|done].
  cbn [ret bind]. unfold path_exists.
  match goal with |- context [on_disk ?p w] => destruct (on_disk p w) end;
    cbn [negb].
  - unfold read_file, bind.
    match goal with |- context [files w !! ?p] => destruct (files w !! p) end;
      [|done].
    cbn. intros [= <- <-]. cbn. by eexists [_].
  - unfold try.
    match goal with |- context [makedirs ?d w] =>
      destruct (makedirs d w) as [r0 w0] eqn:E0 end.
    apply makedirs_only in E0 as (_ & _ & _ & _ & _ & ps & Ht).
    unfold scraper_urlretrieve, scraper_get, bind. cbn [emit].
    destruct (http_get (v_url version)) as [content|]; cbn [ret raise]; [|done].
    unfold write_file. cbn [dirs]. case_bool_decide; [done|].
    cbn. intros [= <- <-]. cbn. rewrite Ht.
    eexists ((EvMkdir <$> ps) ++ [EvRequest (v_url version); EvWrite _ content]).
    split; [by rewrite <- !app_assoc|].
    by rewrite echoes_app, echoes_mkdirs.
Qed.


(** An [extract_to_file] that returns has printed nothing; one that
    raises does not raise a [KeyError]. *)
Lemma extract_to_file_log filename data version w r w' :
  extract_to_file filename data version w = (r, w') →
  (∀ k, r ≠ Raise (KeyError k))
  ∧ ∃ t, trace w' = trace w ++ t ∧ echoes t = [].
Proof.
  unfold extract_to_file, bind, call_extract_text.
  destruct (extract_text data (version_metadata version)) as [text|];
    cbn [ret raise].
  - destruct (truthy text); cbn [negb].
    + unfold try.
      match goal with |- context [makedirs ?d w] =>
        destruct (makedirs d w) as [r0 w0] eqn:E0 end.
      apply makedirs_only in E0 as (_ & _ & _ & _ & _ & ps & Ht).
      unfold write_file. case_bool_decide.
      * intros [= <- <-]. split; [done|]. exists (EvMkdir <$> ps).
        split; [done | apply echoes_mkdirs].
      * cbn. intros [= <- <-]. split; [done|]. cbn. rewrite Ht.
        eexists (_ ++ [_]). split; [by rewrite <- app_assoc|].
        by rewrite echoes_app, echoes_mkdirs.
    + intros [= <- <-]. split; [done|]. exists []. by rewrite app_nil_r.
  - intros [= <- <-]. split; [done|]. exists []. by rewrite app_nil_r.
Qed.

(** The loop of a run that ends: every row is counted, none as
    missing, and one line is printed for each row unless the run is
    quiet. *)
Lemma sample_loop_run rows quiet c w c' w' :
  sample_loop rows quiet c w = (Ok c', w') →
  count c' = count c + length rows
  ∧ missing c' = missing c
  ∧ empty c ≤ empty c' ≤ empty c + length rows
  ∧ ∃ t, trace w' = trace w ++ t
         ∧ length (echoes t) = (if quiet then 0 else length rows).
Proof.
  revert c w. induction rows as [|version rows IH]; intros c w; cbn [sample_loop].
  { intros [= <- <-]. cbn. repeat split; try lia.
    exists []. rewrite app_nil_r. by destruct quiet. }
  unfold bind at 1.
  destruct (download version w) as [[r|e] w1] eqn:Ed; [|done].
  pose proof (download_ok_log _ _ _ _ Ed) as (t1 & Ht1 & He1).
  apply download_returns_content in Ed as (filename & data & -> & Ht).
  rewrite Ht. cbn [negb]. unfold bind at 1.
  destruct (extract_to_file filename data version w1) as [[x|e] w2] eqn:Ex; [|done].
  apply extract_to_file_log in Ex as (_ & t2 & Ht2 & He2).
  unfold bind at 1.
  destruct quiet; cbn [negb ret Click.secho emit];
    destruct (bool_decide (x.2 = 0));
    intros Hl; apply IH in Hl as (Hc & Hm & Hemp & t & Ht' & He);
    cbn [count missing empty trace] in Hc, Hm, Hemp, Ht';
    (split; [cbn; lia|]); (split; [done|]); (split; [cbn; lia|]).
  1,2: exists (t1 ++ t2 ++ t); rewrite Ht', Ht2, Ht1, <- !app_assoc;
    split; [done|]; by rewrite !echoes_app, He1, He2.
  all: exists (t1 ++ t2 ++ [EvEcho (MsgItem filename x.1 x.2) None] ++ t);
    rewrite Ht', Ht2, Ht1, <- !app_assoc; (split; [done|]);
    rewrite !echoes_app, He1, He2; cbn; by rewrite He.
Qed.


End WithCollaborators.

(** X12.  A sampling run that ends has counted every row and no row
    as missing: its last line is the summary, with the number of rows,
    0 missing and at most that many empty; the summary is green when no
    row was empty and red otherwise, never yellow, and the run returns 1
    exactly when it is red; before the summary a quiet run has printed
    nothing and any other run one line for each row. *)
Theorem sample_run_that_ends `{Collaborators} (rows : list Version)
    (quiet : bool) (w w' : World) (r : option Z) :
  sample rows quiet w = (Ok r, w') →
  ∃ n_empty t,
    n_empty ≤ length rows
    ∧ trace w'
      = trace w ++ t
          ++ [EvEcho (MsgSummary (length rows) 0 n_empty)
                (Some (if bool_decide (n_empty = 0) then green else red))]
    ∧ length (echoes t) = (if quiet then 0 else length rows)
    ∧ r = (if bool_decide (n_empty = 0) then None else Some 1%Z).
Proof.
  unfold sample, bind at 1.
  destruct (sample_loop rows quiet {| count := 0; missing := 0; empty := 0 |} w)
    as [[c|e] w1] eqn:El; [|done].
  apply sample_loop_run in El as (Hc & Hm & Hemp & t & Ht & He).
  cbn [count missing empty] in Hc, Hm, Hemp.
  assert (decide_status c = if bool_decide (empty c = 0) then green else red)
    as Hstatus.
  { unfold decide_status. rewrite Hm.
    by destruct (bool_decide (empty c = 0)). }
  unfold bind, Click.secho. cbn [emit]. rewrite Hstatus, Hc, Hm.
  intros Hr. exists (empty c), t. split; [lia|].
  destruct (bool_decide (empty c = 0)); cbn in Hr; injection Hr as <- <-;
    cbn; by rewrite Ht, <- app_assoc.
Qed.

Lemma sample_run_that_ends_witness :
  ∃ n_empty t,
    n_empty ≤ 2
    ∧ trace (@sample Demo.collaborators
               [Demo.row "http://leg.example/text" "text/html";
                Demo.row "http://leg.example/empty" "application/pdf"]
               false Demo.world0).2
      = [] ++ t
          ++ [EvEcho (MsgSummary 2 0 n_empty)
                (Some (if bool_decide (n_empty = 0) then green else red))]
    ∧ length (echoes t) = 2
    ∧ Some 1%Z = (if bool_decide (n_empty = 0) then None else Some 1%Z).
Proof.
  apply (@sample_run_that_ends Demo.collaborators
           [Demo.row "http://leg.example/text" "text/html";
            Demo.row "http://leg.example/empty" "application/pdf"]
           false Demo.world0).
  vm_compute. reflexivity.
Defined.


End SampleRuns.

(** ** The store, once more: an invariant of its rows *)

Module StoreInvariant.
Import Os TextExtract Design UpdateFacts.

Section WithCollaborators.
Context `{Collaborators}.

Lemma link_yield_text bill l text : link_yield bill l = Some text → text ≠ "".
Proof.
  unfold link_yield. destruct (http_get (link_url l)) as [data|]; [|done].
  destruct (extract_text data (link_metadata bill l)) as [t|]; [|done].
  destruct (truthy t) eqn:Et; [|done]. intros [= ->] ->. done.
Qed.

(** The locals the loop ends with are consistent. *)
Lemma final_locals_consistent bill links :
  let st := final_locals bill links
              {| is_error := true; raw_text := ""; link := None |} in
  is_error st = true ↔ raw_text st = "".
Proof.
  unfold final_locals.
  destruct (first_yield bill links) as [[l text]|] eqn:Ef; [|done].
  apply first_yield_Some in Ef as [_ Hy]. apply link_yield_text in Hy.
  cbn. split; [done|]. by intros ->.
Qed.

Lemma update_bill_consistent bill w :
  Forall row_consistent (searchable w) →
  Forall row_consistent (searchable (update_bill bill w).2).
Proof.
  intros Hall. unfold update_bill, bind, try.
  destruct (order_by_date_note_desc (bill_versions bill)) as [|latest others];
    cbn [first_row ret raise]; [done|].
  unfold update_bill_with, bind.
  destruct (link_loop_spec bill (bv_links latest)
              {| is_error := true; raw_text := ""; link := None |} w eq_refl)
    as (w1 & -> & (_ & _ & Hs & _) & _).
  pose proof (final_locals_consistent bill (bv_links latest)) as Hc.
  cbn zeta in Hc. unfold read_local.
  destruct (link (final_locals _ _ _)) as [version_link|]; cbn.
  - rewrite Hs. apply Forall_app. split; [done|]. by constructor.
  - by rewrite Hs.
Qed.

Lemma update_loop_consistent bills acc w :
  Forall row_consistent (searchable w) →
  Forall row_consistent (searchable (update_loop bills acc w).2).
Proof.
  revert acc w. induction bills as [|b rest IH]; intros acc w Hall;
    cbn [update_loop]; [done|].
  unfold bind at 1. pose proof (update_bill_consistent b w Hall) as Hb.
  destruct (update_bill b w) as [[r|e] w1]; [|done].
  by apply IH.
Qed.

End WithCollaborators.

(** X14.  [update] keeps the rows of the table consistent: when in
    every row the error flag is set exactly when the text is empty, the
    same holds after a run, whether the run returns or raises. *)
Theorem update_keeps_rows_consistent `{Collaborators} (bills : list Bill)
    (state : string) (n : nat) (w : World) :
  Forall row_consistent (searchable w) →
  Forall row_consistent (searchable (update bills state n w).2).
Proof.
  intros Hall. unfold update, bind, missing_search, emit. cbv beta iota.
  set (selected := take n _).
  match goal with |- context [update_loop selected [] ?w0] =>
    pose proof (update_loop_consistent selected [] w0 Hall) as Hl;
    destruct (update_loop selected [] w0) as [[ids|e] w1] end; [|done].
  cbn in Hl |- *. rewrite Forall_fmap. eapply Forall_impl; [exact Hl|].
  intros sb Hsb. cbn. by case_bool_decide.
Qed.

Lemma update_keeps_rows_consistent_witness :
  Forall row_consistent
    (searchable
       (@update Demo.collaborators
          [Demo.bill 7 [Demo.version "2020-01-01" "Filed"
                          [Demo.link_empty; Demo.link_text]];
           Demo.bill 8 [Demo.version "2020-01-01" "Filed" [Demo.link_down]]]
          "nc" 100 Demo.world0).2).
Proof.
  apply (@update_keeps_rows_consistent Demo.collaborators
           [Demo.bill 7 [Demo.version "2020-01-01" "Filed"
                           [Demo.link_empty; Demo.link_text]];
            Demo.bill 8 [Demo.version "2020-01-01" "Filed" [Demo.link_down]]]
           "nc" 100 Demo.world0).
  constructor.
Defined.

(** X15.  A run without work still ends with the bulk update: when no
    bill is selected, as with the limit 0, [update] returns, creates no
    row, leaves every row of the table as it was, and logs the two
    messages and one bulk update with the empty list. *)
Theorem update_without_selection `{Collaborators} (bills : list Bill)
    (state : string) (n : nat) (w : World) :
  missing_search bills (abbr_to_jid state) n w = (Ok [], w) →
  ∃ w', update bills state n w = (Ok tt, w')
        ∧ searchable w' = searchable w ∧ sb_seq w' = sb_seq w
        ∧ files w' = files w ∧ dirs w' = dirs w
        ∧ trace w' = trace w ++ [EvEcho (MsgSelected 0) None;
                                 EvEcho (MsgUpdating 0) None;
                                 EvVectorUpdate []].
Proof.
  intros Hsel. unfold update, bind. rewrite Hsel. cbn.
  eexists. split; [reflexivity|]. cbn.
  split; [|by rewrite <- !app_assoc].
  rewrite <- (list_fmap_id (searchable w)) at 2.
  apply list_fmap_ext. intros i sb _. cbn.
  rewrite bool_decide_eq_false_2; [done|]. intros Hin. by apply elem_of_nil in Hin.
Qed.

Lemma update_without_selection_witness :
  ∃ w', @update Demo.collaborators
          [Demo.bill 7 [Demo.version "2020-01-01" "Filed" [Demo.link_text]]]
          "nc" 0 Demo.world0
        = (Ok tt, w')
        ∧ searchable w' = [] ∧ sb_seq w' = 0
        ∧ files w' = ∅ ∧ dirs w' = ∅
        ∧ trace w' = [] ++ [EvEcho (MsgSelected 0) None;
                            EvEcho (MsgUpdating 0) None;
                            EvVectorUpdate []].
Proof.
  apply (@update_without_selection Demo.collaborators
           [Demo.bill 7 [Demo.version "2020-01-01" "Filed" [Demo.link_text]]]
           "nc" 0 Demo.world0).
  vm_compute. reflexivity.
Defined.

End StoreInvariant.

(** ** Sampling from the cache *)

Module OfflineSampling.
Import Os OsFacts TextExtract Design CacheFacts UpdateFacts.

Lemma text_path_not_raw (abbr session identifier note ext : string)
    (abbr' session' identifier' note' ext' : string) :
  text_path (raw_filename abbr session identifier note ext)
  ≠ raw_filename abbr' session' identifier' note' ext'.
Proof.
  unfold text_path, raw_filename.
  rewrite ExtractFacts.str_replace_raw_prefix, ExtractFacts.string_app_assoc.
  intros Heq. discriminate Heq.
Qed.

Section WithCollaborators.
Context `{Collaborators}.

(** [extract_to_file] sends no request and changes no file but the
    text artifact. *)
Lemma extract_to_file_effect filename data version w r w' :
  extract_to_file filename data version w = (r, w') →
  requests (trace w') = requests (trace w)
  ∧ ∀ p, p ≠ text_path filename → files w' !! p = files w !! p.
Proof.
  unfold extract_to_file, bind, call_extract_text.
  destruct (extract_text data (version_metadata version)) as [text|];
    cbn [ret raise]; [|by intros [= <- <-]].
  destruct (truthy text); cbn [negb]; [|by intros [= <- <-]].
  unfold try. fold (text_path filename).
  destruct (makedirs (Path.dirname (text_path filename)) w) as [r0 w0] eqn:E0.
  apply makedirs_only in E0 as (Hf & _ & _ & _ & _ & ps & Ht).
  unfold write_file. case_bool_decide.
  - intros [= <- <-]. rewrite Ht, requests_app, CacheReuse.requests_mkdirs, Hf.
    by rewrite app_nil_r.
  - cbn. intros [= <- <-]. cbn.
    rewrite Ht, !requests_app, CacheReuse.requests_mkdirs, Hf. cbn.
    split; [by rewrite !app_nil_r|].
    intros p Hp. by rewrite lookup_insert_ne.
Qed.

Lemma sample_loop_offline rows quiet c w :
  all_cached rows w →
  requests (trace (sample_loop rows quiet c w).2) = requests (trace w).
Proof.
  revert c w. induction rows as [|version rows IH]; intros c w Hall;
    cbn [sample_loop]; [done|].
  destruct (Hall version) as (ext & data & Hm & Hf); [left|].
  unfold bind at 1. rewrite (download_cached version ext data w Hm Hf).
  assert (truthy (path_of version ext) = true) as -> by done.
  cbn [negb]. unfold bind at 1.
  set (w1 := {| files := files w; dirs := dirs w; searchable := searchable w;
                sb_seq := sb_seq w;
                trace := trace w ++ [EvRead (path_of version ext)] |}).
  destruct (extract_to_file (path_of version ext) data version w1)
    as [[x|e] w2] eqn:Ex;
    apply extract_to_file_effect in Ex as (Hr & Hfiles);
    [|cbn; rewrite Hr; cbn; by rewrite requests_app, app_nil_r].
  assert (all_cached rows w2) as Hall2.
  { intros v Hv. destruct (Hall v) as (ext' & data' & Hm' & Hf'); [by right|].
    exists ext', data'. split; [done|]. rewrite Hfiles; [done|].
    intros Heq. symmetry in Heq. by apply text_path_not_raw in Heq. }
  unfold bind at 1.
  destruct quiet; cbn [negb ret Click.secho emit].
  - rewrite IH by done. rewrite Hr. cbn. by rewrite requests_app, app_nil_r.
  - rewrite IH by done. cbn. rewrite requests_app, Hr. cbn.
    by rewrite requests_app, !app_nil_r.
Qed.

End WithCollaborators.

(** X16.  Sampling from the cache needs no server: when the raw
    artifact of every row is a file on disk, a sampling run sends no
    request at all, whatever the server would answer and however the run
    ends. *)
Theorem sample_from_cache_sends_no_request `{Collaborators}
    (rows : list Version) (quiet : bool) (w : World) :
  (∀ version, version ∈ rows →
     ∃ ext data, MIMETYPES !! v_media_type version = Some ext
                 ∧ files w !! path_of version ext = Some data) →
  requests (trace (sample rows quiet w).2) = requests (trace w).
Proof.
  intros Hall. unfold sample, bind at 1.
  pose proof (sample_loop_offline rows quiet
                {| count := 0; missing := 0; empty := 0 |} w Hall) as Hl.
  destruct (sample_loop rows quiet _ w) as [[c|e] w1]; [|done].
  cbn in Hl. unfold bind, Click.secho. cbn [emit].
  destruct (bool_decide (decide_status c = red)); cbn;
    by rewrite requests_app, Hl, app_nil_r.
Qed.

Lemma sample_from_cache_sends_no_request_witness :
  requests
    (trace (@sample Demo.collaborators
              [Demo.row "http://leg.example/down" "application/pdf";
               Demo.row "http://leg.example/empty" "application/pdf"]
              false Demo.world_cached).2)
  = [].
Proof.
  apply (@sample_from_cache_sends_no_request Demo.collaborators
           [Demo.row "http://leg.example/down" "application/pdf";
            Demo.row "http://leg.example/empty" "application/pdf"]
           false Demo.world_cached).
  intros version Hv. exists "pdf", (String.list_byte_of_string "text").
  apply elem_of_cons in Hv as [->|Hv];
    [|apply list_elem_of_singleton in Hv as ->]; vm_compute; split; reflexivity.
Defined.

End OfflineSampling.
